(** * Healing-ocean scene: per-frame animation, storm trigger and weather

    A shallow embedding of the frame callbacks and timers of
    [src/App.tsx], [src/components/OceanEnvironment.tsx] (the scene with
    [SceneController]) and of the second scene variant [src/unnamed/part_000]
    (the scene with [SceneContent]).

    Conventions of the embedding.
    - A JavaScript [number] is an exact rational ([Q]); results are compared
      with [==] ([Qeq]).  Rounding, infinities and NaN are outside the model.
    - [Math.random()] is an input: a stream [rnd : nat -> Q] whose values the
      callers assume to lie in [0, 1) ([unit_draw]).
    - A [useRef] cell is a record field; a frame callback is a function from
      the old record to the new one.  A callback prop ([onEventTrigger]) is
      a state transformer passed as an argument.
    - [setTimeout] is a queue of pending timers; a timer runs at its due
      time (event-loop latency is outside the model). *)

From Stdlib Require Import QArith Qabs Lqa Lia Bool String.
From stdpp Require Import list.

Local Open Scope Q_scope.

(** ** Numbers *)

(** [a < b] as JavaScript evaluates it: a boolean. *)
Definition Qltb (a b : Q) : bool :=
  match a ?= b with
  | Lt => true
  | _ => false
  end.

(** [Math.max(a, b)]. *)
Definition Math_max (a b : Q) : Q := if Qltb a b then b else a.

(** [Math.abs(a)]. *)
Definition Math_abs (a : Q) : Q := Qabs a.

(** The contract of [Math.random()]: a value in [0, 1). *)
Definition unit_draw (r : Q) : Prop := 0 <= r /\ r < 1.

(** ** three.js *)

Module MathUtils.
(** [MathUtils.lerp(x, y, t)] of three.js: [(1 - t) * x + t * y]. *)
Definition lerp (x y t : Q) : Q := (1 - t) * x + t * y.
End MathUtils.

(** ** src/types.ts *)

Record Vector2 : Type := mkVector2 { v2x : Q; v2y : Q }.

Record HandData : Type := mkHandData {
  isDetected : bool;
  position : Vector2;
  directionVector : Vector2
}.

Inductive GameState : Type := NORMAL | STORM.

Definition GameState_eqb (a b : GameState) : bool :=
  match a, b with
  | NORMAL, NORMAL | STORM, STORM => true
  | _, _ => false
  end.

Record Vector3 : Type := mkVector3 { v3x : Q; v3y : Q; v3z : Q }.

(** ** Rain (the same component in both scene variants) *)

Section RainLoops.
Variable count : nat.

(** One particle's fall during a frame: [y -= 150 * delta], then the
    reset to the top when the new height is below 0. *)
Definition fall (delta y : Q) : Q :=
  let y1 := y - 150 * delta in
  if Qltb y1 0 then 300 else y1.

(** The test of the reset branch for a particle at height [y]. *)
Definition wraps (delta y : Q) : bool := Qltb (y - 150 * delta) 0.

(** The body of the frame loop at index [i] of the position buffer.
    Outside the buffer a typed array reads [undefined] and ignores the
    write: the buffer is left as it is. *)
Definition fall_at (i : nat) (delta : Q) (positions : list Q) : list Q :=
  match positions !! i with
  | None => positions
  | Some y =>
      let positions := <[i := y - 150 * delta]> positions in
      match positions !! i with
      | Some y1 => if Qltb y1 0 then <[i := 300]> positions else positions
      | None => positions
      end
  end.

(** [for (let i = 1; i < count * 3; i += 3) { ... }] *)
Fixpoint frame_loop (fuel i : nat) (delta : Q) (positions : list Q)
  : list Q :=
  match fuel with
  | O => positions
  | S fuel' =>
      if (i <? count * 3)%nat
      then frame_loop fuel' (i + 3)%nat delta (fall_at i delta positions)
      else positions
  end.

(** [for (let i = 0; i < count; i++) { pos[i*3] = ...; ... }] with the
    draws of [Math.random()] numbered in call order. *)
Fixpoint init_loop (fuel i : nat) (rnd : nat -> Q) (pos : list Q)
  : list Q :=
  match fuel with
  | O => pos
  | S fuel' =>
      if (i <? count)%nat then
        let pos := <[(i * 3)%nat := (rnd (3 * i)%nat - (1 # 2)) * 800]> pos in
        let pos := <[(i * 3 + 1)%nat := rnd (3 * i + 1)%nat * 400]> pos in
        let pos :=
          <[(i * 3 + 2)%nat := (rnd (3 * i + 2)%nat - (1 # 2)) * 800]> pos in
        init_loop fuel' (S i) rnd pos
      else pos
  end.
End RainLoops.

Module Rain.
Definition count : nat := Z.to_nat 5000.

(** [new Float32Array(count * 3)] filled by the initialisation loop. *)
Definition initialPositions (rnd : nat -> Q) : list Q :=
  init_loop count count 0 rnd (replicate (count * 3) 0).

(** The [useFrame] callback of [Rain]. *)
Definition useFrame (delta : Q) (positions : list Q) : list Q :=
  frame_loop count count 1 delta positions.

(** Height of particle [k]. *)
Definition height (k : nat) (positions : list Q) : option Q :=
  positions !! (3 * k + 1)%nat.
End Rain.

(** ** LightningSystem of src/components/OceanEnvironment.tsx *)

Module LightningSystem.
(** The refs of the component and the intensity written to the point
    light.  [activeBolt] (React state, with its 150 ms timeout) only
    selects what is drawn and where the light stands; it is not part of
    this record. *)
Record State : Type := mkState {
  nextFlashTime : Q;
  flashIntensity : Q;
  lightIntensity : Q
}.

(** [useRef(0)] twice; the light starts dark. *)
Definition initial : State := mkState 0 0 0.

(** The fixed peak of a flash. *)
Definition peak : Q := 2.

(** [state.clock.elapsedTime > nextFlashTime.current] *)
Definition flashes (elapsedTime : Q) (s : State) : bool :=
  Qltb (nextFlashTime s) elapsedTime.

(** The [useFrame] callback.  A flash draws [Math.random()] three times:
    [rnd 0] and [rnd 1] place the bolt, [rnd 2] is the delay. *)
Definition useFrame (enabled : bool) (elapsedTime delta : Q)
    (rnd : nat -> Q) (s : State) : State :=
  if negb enabled then
    mkState (nextFlashTime s) 0 0
  else
    let s1 :=
      if flashes elapsedTime s then
        mkState (elapsedTime + rnd 2%nat * (5 # 2) + (1 # 2))
                peak
                (lightIntensity s)
      else s in
    let fi := MathUtils.lerp (flashIntensity s1) 0 (delta * 5) in
    mkState (nextFlashTime s1) fi (fi * 10).
End LightningSystem.

(** ** LightningSystem of src/unnamed/part_000 (timer driven) *)

Module TimedLightning.
Inductive Timer : Type := HideFlash | HideBolt | TriggerLightning.

(** Times are milliseconds. *)
Record State : Type := mkState {
  flash : bool;
  bolt : bool;
  background : string;
  timers : list (Q * Timer)
}.

(** [Math.random() * 2000 + 1000] *)
Definition nextDelay (r : Q) : Q := r * 2000 + 1000.

(** [triggerLightning] running at time [now] with draw [r]. *)
Definition triggerLightning (now r : Q) (s : State) : State :=
  mkState true true "#333344"
    (timers s ++ [(now + 100, HideFlash); (now + 300, HideBolt);
                  (now + nextDelay r, TriggerLightning)]).

(** The effect body when [active] becomes true: the first bolt is
    scheduled after [Math.random() * 1000]. *)
Definition activate (now r : Q) (s : State) : State :=
  mkState (flash s) (bolt s) (background s)
    (timers s ++ [(now + r * 1000, TriggerLightning)]).

(** The effect body when [active] is false. *)
Definition deactivate (s : State) : State :=
  mkState false false "#000000" (timers s).
End TimedLightning.

(** ** OceanMesh *)

Module OceanMesh.
Record Uniforms : Type := mkUniforms { time : Q; distortionScale : Q }.

Definition baseDistortion : Q := 37 # 10.
Definition stormDistortion : Q := 8.

Definition targetDistortion (gameState : GameState) : Q :=
  if GameState_eqb gameState STORM then stormDistortion else baseDistortion.

(** src/components/OceanEnvironment.tsx: the factor is [delta]. *)
Definition useFrame (gameState : GameState) (delta : Q) (u : Uniforms)
  : Uniforms :=
  mkUniforms (time u + delta * (1 # 2))
    (MathUtils.lerp (distortionScale u) (targetDistortion gameState) delta).

(** src/unnamed/part_000: the factor is [delta * 0.5]. *)
Definition useFrame_alt (gameState : GameState) (delta : Q) (u : Uniforms)
  : Uniforms :=
  mkUniforms (time u + delta * (1 # 2))
    (MathUtils.lerp (distortionScale u) (targetDistortion gameState)
       (delta * (1 # 2))).
End OceanMesh.

(** A callback together with the number of times it has been called. *)
Definition counted {A : Type} (f : A -> A) (c : nat * A) : nat * A :=
  (S (fst c), f (snd c)).

(** ** SceneController of src/components/OceanEnvironment.tsx *)

Module SceneController.
Definition SPEED : Q := 15.
Definition EVENT_THRESHOLD_SECONDS : Q := 10.
Definition deadzone : Q := 3 # 20.

Record State : Type := mkState {
  moveDuration : Q;
  velocity : Vector3;
  camera : Vector3
}.

(** [useRef(0)], [new Vector3()], and the camera of the [Canvas]. *)
Definition initial : State :=
  mkState 0 (mkVector3 0 0 0) (mkVector3 0 10 100).

(** [const mag = Math.sqrt(x ** 2 + y ** 2); mag > deadzone], decided on
    the squares: the square root is increasing and [deadzone] is
    positive. *)
Definition beyond_deadzone (d : Vector2) : bool :=
  Qltb (deadzone * deadzone) (v2x d * v2x d + v2y d * v2y d).

Definition isMoving (handData : HandData) : bool :=
  isDetected handData && beyond_deadzone (directionVector handData).

Definition targetVelocity (handData : HandData) : Vector3 :=
  if isMoving handData
  then mkVector3 (v2x (directionVector handData) * SPEED) 0
                 (v2y (directionVector handData) * SPEED)
  else mkVector3 0 0 0.

(** The [useFrame] callback; [a] is whatever [onEventTrigger] acts on. *)
Definition useFrame {A : Type} (onEventTrigger : A -> A)
    (handData : HandData) (delta : Q) (s : State) (a : A) : State * A :=
  let tv := targetVelocity handData in
  let '(md, a) :=
    if isMoving handData then
      let md := moveDuration s + delta in
      if Qltb EVENT_THRESHOLD_SECONDS md
      then (0, onEventTrigger a)
      else (md, a)
    else (Math_max 0 (moveDuration s - delta * 2), a) in
  let vx := v3x (velocity s) + (v3x tv - v3x (velocity s)) * (1 # 20) in
  let vz := v3z (velocity s) + (v3z tv - v3z (velocity s)) * (1 # 20) in
  (mkState md
     (mkVector3 vx (v3y (velocity s)) vz)
     (mkVector3 (v3x (camera s) + vx * delta) 10
                (v3z (camera s) + vz * delta)),
   a).

(** Successive frames with the same hand sample. *)
Definition frames {A : Type} (onEventTrigger : A -> A)
    (handData : HandData) (deltas : list Q) (s : State) (a : A)
  : State * A :=
  fold_left (fun sa d => useFrame onEventTrigger handData d (fst sa) (snd sa))
    deltas (s, a).
End SceneController.

(** ** SceneContent of src/unnamed/part_000 *)

Module SceneContent.
Definition speed : Q := 1 # 2.

Record State : Type := mkState {
  movement : Q;
  cameraPosition : Vector3;
  lookAt : Vector3
}.

Definition initial : State :=
  mkState 0 (mkVector3 0 10 100) (mkVector3 0 10 (-50)).

(** [Math.abs(x) > 0.2 || Math.abs(y) > 0.2] *)
Definition isMoving (handData : HandData) : bool :=
  Qltb (1 # 5) (Math_abs (v2x (directionVector handData)))
  || Qltb (1 # 5) (Math_abs (v2y (directionVector handData))).

(** Where the pan of one axis is heading. *)
Definition panTargetX (handData : HandData) : Q :=
  v2x (directionVector handData) * 10.
Definition panTargetY (handData : HandData) : Q :=
  v2y (directionVector handData) * 5 + 10.

(** The accumulator after the update of a frame with a detected hand
    and before the threshold test. *)
Definition updated (handData : HandData) (delta mv : Q) : Q :=
  if isMoving handData then mv + delta else Math_max 0 (mv - delta).

(** The [useFrame] callback. *)
Definition useFrame {A : Type} (onEventTrigger : A -> A)
    (handData : HandData) (gameState : GameState) (delta : Q)
    (s : State) (a : A) : State * A :=
  let d := directionVector handData in
  let targetX := if isDetected handData then v2x d * 20 else 0 in
  let targetY := if isDetected handData then 10 + v2y d * 10 else 10 in
  let p := cameraPosition s in
  let px := v3x p + (v2x d * 10 - v3x p) * delta * speed in
  let py := v3y p + (v2y d * 5 + 10 - v3y p) * delta * speed in
  let '(mv, a) :=
    if isDetected handData then
      let mv := updated handData delta (movement s) in
      if Qltb 10 mv && GameState_eqb gameState NORMAL
      then (0, onEventTrigger a)
      else (mv, a)
    else (movement s, a) in
  (mkState mv (mkVector3 px py (v3z p)) (mkVector3 targetX targetY (-50)),
   a).

(** Successive frames with the same hand sample and game state. *)
Definition frames {A : Type} (onEventTrigger : A -> A)
    (handData : HandData) (gameState : GameState) (deltas : list Q)
    (s : State) (a : A) : State * A :=
  fold_left
    (fun sa d => useFrame onEventTrigger handData gameState d (fst sa) (snd sa))
    deltas (s, a).
End SceneContent.

(** ** src/App.tsx *)

Module App.
Inductive Timer : Type := EndStorm | RestoreMsg.

(** Times are milliseconds.  [timers] are the pending [setTimeout]
    callbacks with the time at which each is due. *)
Record State : Type := mkState {
  gameState : GameState;
  msg : string;
  timers : list (Q * Timer)
}.

Definition defaultMsg : string := "Use your index finger to guide the view".

Definition initial : State := mkState NORMAL defaultMsg [].

(** How long a storm lasts: the delay of the outer [setTimeout]. *)
Definition stormDuration : Q := 10000.

(** [triggerStorm], called at time [now]. *)
Definition triggerStorm (now : Q) (s : State) : State :=
  if GameState_eqb (gameState s) STORM then s
  else mkState STORM "A STORM IS PASSING THROUGH..."
         (timers s ++ [(now + stormDuration, EndStorm)]).

(** The body of a timer callback, running at time [now]. *)
Definition fire (t : Timer) (now : Q) (s : State) : State :=
  match t with
  | EndStorm =>
      mkState NORMAL "The sky clears. Peace returns."
        (timers s ++ [(now + 4000, RestoreMsg)])
  | RestoreMsg => mkState (gameState s) defaultMsg (timers s)
  end.

(** The pending timer that runs next (the earliest due time, the first
    scheduled among equals) and the timers left. *)
Fixpoint pick (ts : list (Q * Timer))
  : option ((Q * Timer) * list (Q * Timer)) :=
  match ts with
  | [] => None
  | t :: ts' =>
      match pick ts' with
      | Some (u, rest) =>
          if Qltb (fst u) (fst t) then Some (u, t :: rest) else Some (t, ts')
      | None => Some (t, [])
      end
  end.

(** Run, in the order of their due times, the timers due up to time
    [t]; each callback runs at its own due time. *)
Fixpoint run_due (fuel : nat) (t : Q) (s : State) : State :=
  match fuel with
  | O => s
  | S fuel' =>
      match pick (timers s) with
      | Some ((due, act), rest) =>
          if Qltb t due then s
          else run_due fuel' t
                 (fire act due (mkState (gameState s) (msg s) rest))
      | None => s
      end
  end.

(** What a pending timer can still cause to run: an [EndStorm] schedules
    one [RestoreMsg]. *)
Definition weight (ts : list (Q * Timer)) : nat :=
  list_sum
    (map (fun t => match snd t with EndStorm => 2%nat | RestoreMsg => 1%nat end)
         ts).

(** Let the clock reach [t]. *)
Definition advance (t : Q) (s : State) : State :=
  run_due (weight (timers s)) t s.

(** What happens to the application: the clock reaches [t], and then
    [onEventTrigger] is or is not called. *)
Inductive Event : Type :=
| Elapse (t : Q)
| Trigger (t : Q).

Definition event_time (e : Event) : Q :=
  match e with Elapse t | Trigger t => t end.

Definition step (s : State) (e : Event) : State :=
  match e with
  | Elapse t => advance t s
  | Trigger t => triggerStorm t (advance t s)
  end.

Definition run (es : list Event) (s : State) : State := fold_left step es s.

(** The number of pending [EndStorm] timers. *)
Definition pending_ends (ts : list (Q * Timer)) : nat :=
  list_sum
  (map (fun t => match snd t with EndStorm => 1%nat | RestoreMsg => 0%nat end)
       ts).

(** Whether an [EndStorm] timer is pending that is due by time [t]. *)
Definition end_due (t : Q) (ts : list (Q * Timer)) : bool :=
  existsb (fun x => match snd x with
                    | EndStorm => negb (Qltb t (fst x))
                    | RestoreMsg => false
                    end) ts.
End App.

(** ** States of the storm timer *)

(** What holds from the entry into a storm whose timer is due at [T] until
    that timer runs. *)
Definition storm_pending (T : Q) (s : App.State) : Prop :=
  App.gameState s = STORM
  /\ App.pending_ends (App.timers s) = 1%nat
  /\ In (T, App.EndStorm) (App.timers s).

(** Every state the application reaches has one pending [EndStorm] timer
    during a storm and none otherwise. *)
Definition timers_match_state (s : App.State) : Prop :=
  App.pending_ends (App.timers s)
  = match App.gameState s with STORM => 1%nat | NORMAL => 0%nat end.

(** ** The scene of OceanEnvironment.tsx mounted in App

    [<SceneController onEventTrigger={triggerStorm} />]: a frame of the
    controller at application time [now], counting the calls of the
    callback. *)

Module Mounted.
Record World : Type := mkWorld {
  controller : SceneController.State;
  app : App.State
}.

(** The frame, and how many times it called [onEventTrigger]. *)
Definition frame (now : Q) (handData : HandData) (delta : Q) (w : World)
  : World * nat :=
  let '(c, (n, a)) :=
    SceneController.useFrame (counted (App.triggerStorm now))
      handData delta (controller w) (O, app w) in
  (mkWorld c a, n).

(** The same for the scene of part_000, whose frame reads [gameState]. *)
Record World_alt : Type := mkWorld_alt {
  content : SceneContent.State;
  app_alt : App.State
}.

Definition frame_alt (now : Q) (handData : HandData) (delta : Q)
    (w : World_alt) : World_alt * nat :=
  let '(c, (n, a)) :=
    SceneContent.useFrame (counted (App.triggerStorm now))
      handData (App.gameState (app_alt w)) delta (content w) (O, app_alt w) in
  (mkWorld_alt c a, n).
End Mounted.

(** ** Closed form of repeated panning

    The share of the distance to the pan target that is left after frames
    of lengths [deltas] in [SceneContent]: each frame keeps
    [1 - delta * speed] of it. *)
Fixpoint closing_factor (deltas : list Q) : Q :=
  match deltas with
  | [] => 1
  | d :: ds => (1 - d * SceneContent.speed) * closing_factor ds
  end.

(** ** Lightning bolts *)

Module Bolt.
(** The [while (current.y > 10)] loop of [createBoltPoints] in
    OceanEnvironment.tsx, from the state after the first [push].  [n] is
    the number of [Math.random()] calls made so far: a round draws the
    drop, the two jitters and the branch chance, and a fifth value when the
    chance is above 0.7.  [None] stands for a loop still running when the
    fuel is used up. *)
Fixpoint zigzag (fuel : nat) (rnd : nat -> Q) (n : nat) (current : Vector3)
  : option (list Vector3) :=
  match fuel with
  | O => None
  | S fuel' =>
      if Qltb 10 (v3y current) then
        let drop := rnd n * 30 + 10 in
        let y := v3y current - drop in
        let x := v3x current + (rnd (n + 1)%nat - (1 # 2)) * 40 in
        let z := v3z current + (rnd (n + 2)%nat - (1 # 2)) * 40 in
        let branch := Qltb (7 # 10) (rnd (n + 3)%nat) in
        let x' := if branch then x + (rnd (n + 4)%nat - (1 # 2)) * 50 else x in
        let n' := if branch then (n + 5)%nat else (n + 4)%nat in
        option_map (cons (mkVector3 x y z))
          (zigzag fuel' rnd n' (mkVector3 x' y z))
      else Some []
  end.

(** [createBoltPoints(startPos)] *)
Definition createBoltPoints (fuel : nat) (rnd : nat -> Q) (startPos : Vector3)
  : option (list Vector3) :=
  option_map (cons startPos) (zigzag fuel rnd 0 startPos).

(** The bolt of [LightningSystem]: [new Vector3(x, 300, z)] with
    [x = (Math.random() - 0.5) * 800] and
    [z = (Math.random() - 0.5) * 800 - 200]. *)
Definition strikeStart (r0 r1 : Q) : Vector3 :=
  mkVector3 ((r0 - (1 # 2)) * 800) 300 ((r1 - (1 # 2)) * 800 - 200).

(** The [for] loop of [LightningBolt] in part_000: [k] segments left,
    [p] the last point. *)
Fixpoint segments_loop (k : nat) (rnd : nat -> Q) (n : nat) (p : Vector3)
  : list Vector3 :=
  match k with
  | O => []
  | S k' =>
      let x := v3x p + (rnd n - (1 # 2)) * 30 in
      let y := v3y p - (20 + rnd (n + 1)%nat * 20) in
      let z := v3z p + (rnd (n + 2)%nat - (1 # 2)) * 30 in
      mkVector3 x y z :: segments_loop k' rnd (n + 3)%nat (mkVector3 x y z)
  end.

Definition segments : nat := 15.

(** The points of [LightningBolt] in part_000. *)
Definition boltPoints (rnd : nat -> Q) : list Vector3 :=
  let x := (rnd 0%nat - (1 # 2)) * 600 in
  let z := (rnd 1%nat - (1 # 2)) * 400 - 200 in
  mkVector3 x 300 z :: segments_loop segments rnd 2 (mkVector3 x 300 z).

(** Consecutive points of a zigzag: each is lower than the one before by
    at least 10 and by less than 40. *)
Fixpoint descends (y : Q) (pts : list Vector3) : Prop :=
  match pts with
  | [] => True
  | p :: pts' => 10 <= y - v3y p /\ y - v3y p < 40 /\ descends (v3y p) pts'
  end.

(** Every point but the last is above height 10, the last is not. *)
Fixpoint lands (y : Q) (pts : list Vector3) : Prop :=
  match pts with
  | [] => y <= 10
  | p :: pts' => 10 < y /\ lands (v3y p) pts'
  end.
End Bolt.

(** ** HandTracker ([predictWebcam]) *)

Module HandTracker.
(** A normalized landmark of the detector; its depth is not read. *)
Record Landmark : Type := mkLandmark { lmx : Q; lmy : Q }.

(** The sample sent when no hand is found. *)
Definition noHand : HandData :=
  mkHandData false (mkVector2 (1 # 2) (1 # 2)) (mkVector2 0 0).

(** The sample sent for the index finger tip [indexTip]. *)
Definition tipSample (indexTip : Landmark) : HandData :=
  let x := 1 - lmx indexTip in
  let y := lmy indexTip in
  let dirX := (x - (1 # 2)) * 2 in
  let dirY := (y - (1 # 2)) * 2 in
  mkHandData true (mkVector2 x y) (mkVector2 dirX dirY).

(** The argument of [onUpdate] for the detected [landmarks] (one list a
    hand).  [None] stands for the [TypeError] of reading [.x] of
    [landmarks[8]] in a hand with fewer than nine landmarks. *)
Definition sample (landmarks : list (list Landmark)) : option HandData :=
  match landmarks with
  | [] => Some noHand
  | hand :: _ =>
      match hand !! 8%nat with
      | Some indexTip => Some (tipSample indexTip)
      | None => None
      end
  end.

(** [lastVideoTimeRef] and the hand data held by [App]. *)
Record State : Type := mkState { lastVideoTime : Q; handData : HandData }.

(** [useRef(-1)] and the initial state of [App]. *)
Definition initial : State := mkState (-1) noHand.

(** One run of [predictWebcam] with the detector and the video ready:
    [currentTime] is the time of the video frame, [landmarks] what the
    detector finds in it. *)
Definition predictWebcam (currentTime : Q)
    (landmarks : list (list Landmark)) (s : State) : option State :=
  if Qeq_bool currentTime (lastVideoTime s) then Some s
  else option_map (mkState currentTime) (sample landmarks).
End HandTracker.

(** ** Runs of frames *)

Module Runs.
(** Frames of [OceanMesh] in OceanEnvironment.tsx under one game state. *)
Definition ocean (gameState : GameState) (deltas : list Q)
    (u : OceanMesh.Uniforms) : OceanMesh.Uniforms :=
  fold_left (fun u d => OceanMesh.useFrame gameState d u) deltas u.

(** What a frame of [LightningSystem] receives. *)
Record LightningFrame : Type := mkLightningFrame {
  enabled : bool;
  elapsedTime : Q;
  delta : Q;
  rnd : nat -> Q
}.

Definition lightning (fs : list LightningFrame) (s : LightningSystem.State)
  : LightningSystem.State :=
  fold_left
    (fun s f => LightningSystem.useFrame (enabled f) (elapsedTime f) (delta f)
                  (rnd f) s)
    fs s.

(** The height of one rain drop through successive frames. *)
Definition drop (deltas : list Q) (y : Q) : Q :=
  fold_left (fun y d => fall d y) deltas y.

(** The rain buffer through successive frames. *)
Definition rain (positions : list Q) (deltas : list Q) : list Q :=
  fold_left (fun p d => Rain.useFrame d p) deltas positions.

(** How many of the frames [fs] of the lightning flash. *)
Fixpoint flash_count (fs : list LightningFrame) (s : LightningSystem.State)
  : nat :=
  match fs with
  | [] => O
  | f :: fs' =>
      ((if enabled f && LightningSystem.flashes (elapsedTime f) s
        then 1 else 0)
       + flash_count fs'
           (LightningSystem.useFrame (enabled f) (elapsedTime f) (delta f)
              (rnd f) s))%nat
  end.

(** The sum of the elapsed times. *)
Definition total (deltas : list Q) : Q := fold_right Qplus 0 deltas.

(** The share of the distance to its target that a [lerp] by [delta]
    leaves, frame after frame. *)
Definition kept (deltas : list Q) : Q :=
  fold_right (fun d acc => (1 - d) * acc) 1 deltas.

(** The share of its velocity that [SceneController] keeps through [n]
    frames without movement: 0.95 a frame. *)
Fixpoint coast (n : nat) : Q :=
  match n with
  | O => 1
  | S n' => (19 # 20) * coast n'
  end.
End Runs.

(** ** The effect of the timer-driven LightningSystem (part_000) *)

Module TimedEffect.
Import TimedLightning.

(** The body of a timer callback running at time [now]; [r] is the draw of
    a strike. *)
Definition fire (t : Timer) (now r : Q) (s : State) : State :=
  match t with
  | HideFlash => mkState false (bolt s) "#050505" (timers s)
  | HideBolt => mkState (flash s) false (background s) (timers s)
  | TriggerLightning => triggerLightning now r s
  end.

Definition is_strike (x : Q * Timer) : bool :=
  match snd x with
  | TriggerLightning => true
  | _ => false
  end.

(** The queue without the strike that was scheduled last. *)
Fixpoint remove_last_strike (ts : list (Q * Timer)) : list (Q * Timer) :=
  match ts with
  | [] => []
  | x :: ts' =>
      if existsb is_strike ts' then x :: remove_last_strike ts'
      else if is_strike x then ts' else x :: ts'
  end.

(** [clearTimeout(timeoutId)]: [timeoutId] is the strike scheduled last. *)
Definition cleanup (s : State) : State :=
  mkState (flash s) (bolt s) (background s) (remove_last_strike (timers s)).

(** [active] turns false: the cleanup of the running effect, then the
    effect body. *)
Definition stop (s : State) : State := deactivate (cleanup s).
End TimedEffect.

(** * Facts *)

(** ** Numbers *)

Lemma Qltb_true (a b : Q) : Qltb a b = true <-> a < b.
Proof.
  unfold Qltb. rewrite Qlt_alt. destruct (a ?= b); intuition discriminate.
Qed.

Lemma Qltb_false (a b : Q) : Qltb a b = false <-> b <= a.
Proof.
  unfold Qltb. rewrite Qle_alt, <- Qgt_alt, Qlt_alt.
  destruct (a ?= b); intuition discriminate.
Qed.

Lemma Math_max_cases (a b : Q) :
  (a < b /\ Math_max a b = b) \/ (b <= a /\ Math_max a b = a).
Proof.
  unfold Math_max. destruct (Qltb a b) eqn:E.
  - left. apply Qltb_true in E. auto.
  - right. apply Qltb_false in E. auto.
Qed.

Lemma lerp_towards (x y t : Q) : MathUtils.lerp x y t == x + (y - x) * t.
Proof. unfold MathUtils.lerp. ring. Qed.

(** Case analysis on a JavaScript comparison, keeping the fact. *)
Ltac case_ltb a b :=
  let E := fresh "E" in
  destruct (Qltb a b) eqn:E;
  [apply Qltb_true in E | apply Qltb_false in E].

(** ** Rain: what a frame does to each cell of the buffer *)

Lemma fall_cases (delta y : Q) :
  (y - 150 * delta < 0 /\ fall delta y = 300)
  \/ (0 <= y - 150 * delta /\ fall delta y = y - 150 * delta).
Proof.
  unfold fall. case_ltb (y - 150 * delta) 0; auto.
Qed.

Lemma fall_nonneg (delta y : Q) : 0 <= fall delta y.
Proof. destruct (fall_cases delta y) as [[_ ->]|[H ->]]; lra. Qed.

Lemma fall_at_same (i : nat) (delta : Q) (positions : list Q) (y : Q) :
  positions !! i = Some y ->
  fall_at i delta positions !! i = Some (fall delta y).
Proof.
  intros Hy. unfold fall_at, fall. rewrite Hy. cbn zeta.
  assert (Hi : (i < length positions)%nat) by (eapply lookup_lt_Some; eauto).
  rewrite list_lookup_insert_eq by exact Hi.
  destruct (Qltb (y - 150 * delta) 0).
  - rewrite list_lookup_insert_eq; [reflexivity|].
    rewrite length_insert. exact Hi.
  - rewrite list_lookup_insert_eq by exact Hi. reflexivity.
Qed.

Lemma fall_at_other (i j : nat) (delta : Q) (positions : list Q) :
  i <> j -> fall_at i delta positions !! j = positions !! j.
Proof.
  intros Hij. unfold fall_at.
  destruct (positions !! i) as [y|]; [|reflexivity]. cbn zeta.
  destruct (<[i:=y - 150 * delta]> positions !! i) as [y1|].
  - destruct (Qltb y1 0); rewrite ?list_lookup_insert_ne by exact Hij;
      reflexivity.
  - rewrite list_lookup_insert_ne by exact Hij. reflexivity.
Qed.

Section RainLoopFacts.
Variable count : nat.

Lemma frame_loop_before (fuel i j : nat) (delta : Q) (positions : list Q) :
  (j < i)%nat ->
  frame_loop count fuel i delta positions !! j = positions !! j.
Proof.
  revert i positions.
  induction fuel as [|fuel IH]; intros i positions Hj; [reflexivity|].
  cbn [frame_loop]. destruct (i <? count * 3)%nat; [|reflexivity].
  rewrite IH by lia. apply fall_at_other. lia.
Qed.

Lemma frame_loop_off (fuel i j : nat) (delta : Q) (positions : list Q) :
  (j mod 3 <> i mod 3)%nat ->
  frame_loop count fuel i delta positions !! j = positions !! j.
Proof.
  revert i positions.
  induction fuel as [|fuel IH]; intros i positions Hj; [reflexivity|].
  cbn [frame_loop]. destruct (i <? count * 3)%nat; [|reflexivity].
  rewrite IH.
  - apply fall_at_other. intros ->. apply Hj. reflexivity.
  - replace ((i + 3) mod 3)%nat with (i mod 3)%nat; [exact Hj|].
    symmetry. apply (Nat.Div0.mod_add i 1 3).
Qed.

Lemma frame_loop_hit (fuel k i : nat) (delta : Q) (positions : list Q)
    (y : Q) :
  (k < fuel)%nat -> (i + 3 * k < count * 3)%nat ->
  positions !! (i + 3 * k)%nat = Some y ->
  frame_loop count fuel i delta positions !! (i + 3 * k)%nat
  = Some (fall delta y).
Proof.
  revert k i positions.
  induction fuel as [|fuel IH]; intros k i positions Hk Hin Hy; [lia|].
  cbn [frame_loop].
  assert (Hi : (i <? count * 3)%nat = true) by (apply Nat.ltb_lt; lia).
  rewrite Hi. destruct k as [|k].
  - replace (i + 3 * 0)%nat with i in * by lia.
    rewrite frame_loop_before by lia. apply fall_at_same, Hy.
  - replace (i + 3 * S k)%nat with (i + 3 + 3 * k)%nat in * by lia.
    apply IH; [lia|lia|].
    rewrite fall_at_other by lia. exact Hy.
Qed.

Lemma init_loop_length (fuel i : nat) (rnd : nat -> Q) (pos : list Q) :
  length (init_loop count fuel i rnd pos) = length pos.
Proof.
  revert i pos. induction fuel as [|fuel IH]; intros i pos; [reflexivity|].
  cbn [init_loop]. destruct (i <? count)%nat; [|reflexivity].
  rewrite IH, !length_insert. reflexivity.
Qed.

Lemma init_loop_before (fuel i j : nat) (rnd : nat -> Q) (pos : list Q) :
  (j < 3 * i)%nat ->
  init_loop count fuel i rnd pos !! j = pos !! j.
Proof.
  revert i pos. induction fuel as [|fuel IH]; intros i pos Hj; [reflexivity|].
  cbn [init_loop]. destruct (i <? count)%nat; [|reflexivity].
  rewrite IH by lia. rewrite !list_lookup_insert_ne by lia. reflexivity.
Qed.

Lemma init_loop_height (fuel k i : nat) (rnd : nat -> Q) (pos : list Q) :
  (k < fuel)%nat -> (i + k < count)%nat -> (count * 3 <= length pos)%nat ->
  init_loop count fuel i rnd pos !! (3 * (i + k) + 1)%nat
  = Some (rnd (3 * (i + k) + 1)%nat * 400).
Proof.
  revert k i pos.
  induction fuel as [|fuel IH]; intros k i pos Hk Hin Hlen; [lia|].
  cbn [init_loop].
  assert (Hi : (i <? count)%nat = true) by (apply Nat.ltb_lt; lia).
  rewrite Hi. destruct k as [|k].
  - replace (i + 0)%nat with i by lia.
    rewrite init_loop_before by lia.
    rewrite list_lookup_insert_ne by lia.
    replace (3 * i + 1)%nat with (i * 3 + 1)%nat at 1 by lia.
    rewrite list_lookup_insert_eq; [reflexivity|].
    rewrite length_insert. lia.
  - replace (i + S k)%nat with (S i + k)%nat by lia.
    apply IH; [lia|lia|]. rewrite !length_insert. exact Hlen.
Qed.
End RainLoopFacts.

(** A frame of [Rain] replaces the height of every particle by its
    [fall], and touches nothing else. *)
Lemma Rain_useFrame_height (delta : Q) (positions : list Q) (k : nat) (y : Q) :
  (k < Rain.count)%nat ->
  Rain.height k positions = Some y ->
  Rain.height k (Rain.useFrame delta positions) = Some (fall delta y).
Proof.
  unfold Rain.height, Rain.useFrame. intros Hk Hy.
  replace (3 * k + 1)%nat with (1 + 3 * k)%nat in * by lia.
  apply frame_loop_hit; [exact Hk|lia|exact Hy].
Qed.

Lemma Rain_useFrame_horizontal (delta : Q) (positions : list Q) (j : nat) :
  (j mod 3 <> 1)%nat ->
  Rain.useFrame delta positions !! j = positions !! j.
Proof.
  intros Hj. unfold Rain.useFrame. apply frame_loop_off. exact Hj.
Qed.

Lemma Rain_initial_height (rnd : nat -> Q) (k : nat) :
  (k < Rain.count)%nat ->
  Rain.height k (Rain.initialPositions rnd) = Some (rnd (3 * k + 1)%nat * 400).
Proof.
  intros Hk. unfold Rain.height, Rain.initialPositions.
  apply (init_loop_height Rain.count Rain.count k 0); [exact Hk|lia|].
  rewrite length_replicate. lia.
Qed.

Lemma Rain_count_pos : (0 < Rain.count)%nat.
Proof. apply Nat.ltb_lt. vm_compute. reflexivity. Qed.

(** The loops of [Rain] run over thousands of cells: from here on they are
    used through the three lemmas above and by evaluation only. *)
Opaque Rain.useFrame Rain.initialPositions Rain.count.

(** Inside [0, 300] a height stays there through a frame whose elapsed
    time is not negative. *)
Lemma fall_keeps_bound (delta y : Q) :
  0 <= delta -> 0 <= y -> y <= 300 ->
  0 <= fall delta y /\ fall delta y <= 300.
Proof.
  intros Hd H0 H1. destruct (fall_cases delta y) as [[_ ->]|[H ->]]; lra.
Qed.

(** C7. In a frame with [delta > 0] the horizontal coordinates of every
    particle are untouched; a particle whose height drops below 0 is put
    back at height 300 in that frame, any other keeps its lowered height;
    so no height is below 0 when the frame ends. *)
Theorem rain_redeposit_same_frame
    (delta : Q) (positions : list Q) (k : nat) (y : Q) :
  0 < delta ->
  (k < Rain.count)%nat ->
  Rain.height k positions = Some y ->
  Rain.useFrame delta positions !! (3 * k)%nat = positions !! (3 * k)%nat
  /\ Rain.useFrame delta positions !! (3 * k + 2)%nat
     = positions !! (3 * k + 2)%nat
  /\ (y - 150 * delta < 0 ->
      Rain.height k (Rain.useFrame delta positions) = Some 300)
  /\ (0 <= y - 150 * delta ->
      Rain.height k (Rain.useFrame delta positions) = Some (y - 150 * delta))
  /\ (exists y', Rain.height k (Rain.useFrame delta positions) = Some y'
                 /\ 0 <= y').
Proof.
  intros _ Hk Hy.
  pose proof (Rain_useFrame_height delta positions k y Hk Hy) as Hh.
  repeat apply conj.
  - apply Rain_useFrame_horizontal.
    replace (3 * k)%nat with (0 + k * 3)%nat by lia.
    rewrite Nat.Div0.mod_add. cbn. lia.
  - apply Rain_useFrame_horizontal.
    replace (3 * k + 2)%nat with (2 + k * 3)%nat by lia.
    rewrite Nat.Div0.mod_add. cbn. lia.
  - intros Hlt. rewrite Hh.
    destruct (fall_cases delta y) as [[_ ->]|[H _]]; [reflexivity|lra].
  - intros Hge. rewrite Hh.
    destruct (fall_cases delta y) as [[H _]|[_ ->]]; [lra|reflexivity].
  - exists (fall delta y). split; [exact Hh|apply fall_nonneg].
Qed.

Lemma rain_redeposit_same_frame_witness :
  Rain.height 0 (Rain.useFrame 1 (replicate (Rain.count * 3) 100))
  = Some 300.
Proof.
  assert (H0 : Rain.height 0 (replicate (Rain.count * 3) 100) = Some 100)
    by (vm_compute; reflexivity).
  assert (H1 : 0 < 1) by reflexivity.
  assert (H2 : 100 - 150 * 1 < 0) by reflexivity.
  exact (proj1 (proj2 (proj2
    (rain_redeposit_same_frame 1 (replicate (Rain.count * 3) 100) 0 100
       H1 Rain_count_pos H0))) H2).
Defined.

(** C10, as stated, fails: a particle that starts above 300 is inside
    [0, 300] after it has fallen far enough, before any wrap.  With every
    draw equal to 0.9 particle 0 starts at 360, and one frame of one second
    leaves it at 210 without the reset branch having been taken. *)
Lemma rain_bound_without_wrap :
  let p0 := Rain.initialPositions (fun _ => 9 # 10) in
  exists y0 y1,
    Rain.height 0 p0 = Some y0 /\ y0 == 360
    /\ wraps 1 y0 = false
    /\ Rain.height 0 (Rain.useFrame 1 p0) = Some y1
    /\ y1 == 210 /\ 0 <= y1 /\ y1 <= 300.
Proof.
  cbv zeta.
  pose proof (Rain_initial_height (fun _ => 9 # 10) 0 Rain_count_pos) as H0.
  pose proof (Rain_useFrame_height 1 _ 0 _ Rain_count_pos H0) as H1.
  eexists. eexists.
  split; [exact H0|]. split; [reflexivity|].
  split; [reflexivity|]. split; [exact H1|].
  split; [reflexivity|]. split; discriminate.
Qed.

(** C10, amended. The initial heights are [r * 400] with [r] in [0, 1):
    they lie in [0, 400) and can exceed the reset height 300 (a draw of 0.9
    gives 360), so [0, 300] is not an invariant from activation.  A particle
    sent back to the top is at 300, and a height that is inside [0, 300],
    after a reset or after falling there, is inside [0, 300] again after
    every frame with [delta >= 0]. *)
Theorem rain_bound_after_descent
    (rnd : nat -> Q) (k : nat) (delta : Q) (positions : list Q) (y : Q) :
  (forall n, unit_draw (rnd n)) ->
  (k < Rain.count)%nat ->
  0 <= delta ->
  Rain.height k positions = Some y ->
  (exists y0, Rain.height k (Rain.initialPositions rnd) = Some y0
              /\ 0 <= y0 /\ y0 < 400)
  /\ (exists y0, Rain.height k (Rain.initialPositions (fun _ => 9 # 10))
                 = Some y0 /\ 300 < y0)
  /\ (wraps delta y = true ->
      Rain.height k (Rain.useFrame delta positions) = Some 300)
  /\ (0 <= y -> y <= 300 ->
      exists y', Rain.height k (Rain.useFrame delta positions) = Some y'
                 /\ 0 <= y' /\ y' <= 300).
Proof.
  intros Hrnd Hk Hd Hy.
  pose proof (Rain_useFrame_height delta positions k y Hk Hy) as Hh.
  repeat apply conj.
  - eexists. split; [apply Rain_initial_height, Hk|].
    destruct (Hrnd (3 * k + 1)%nat) as [H0 H1]. lra.
  - eexists. split; [apply Rain_initial_height, Hk|]. reflexivity.
  - intros Hw. rewrite Hh.
    unfold wraps in Hw. unfold fall. cbn zeta. rewrite Hw. reflexivity.
  - intros H0 H1. exists (fall delta y). split; [exact Hh|].
    apply fall_keeps_bound; assumption.
Qed.

Lemma rain_bound_after_descent_witness :
  exists y', Rain.height 0
               (Rain.useFrame (1 # 2) (replicate (Rain.count * 3) 100))
             = Some y' /\ 0 <= y' /\ y' <= 300.
Proof.
  assert (H0 : Rain.height 0 (replicate (Rain.count * 3) 100) = Some 100)
    by (vm_compute; reflexivity).
  assert (Hr : forall n : nat, unit_draw ((fun _ => 1 # 2) n))
    by (intros n; split; [discriminate|reflexivity]).
  assert (Hd : 0 <= 1 # 2) by discriminate.
  assert (Ha : 0 <= 100) by discriminate.
  assert (Hb : 100 <= 300) by discriminate.
  exact (proj2 (proj2 (proj2
    (rain_bound_after_descent (fun _ => 1 # 2) 0 (1 # 2)
       (replicate (Rain.count * 3) 100) 100 Hr Rain_count_pos Hd H0)))
    Ha Hb).
Defined.

(** ** The two scene controllers *)

Lemma SceneController_moveDuration {A : Type} (f : A -> A)
    (handData : HandData) (delta : Q) (s : SceneController.State) (a : A) :
  SceneController.moveDuration
    (fst (SceneController.useFrame f handData delta s a))
  = if SceneController.isMoving handData then
      if Qltb 10 (SceneController.moveDuration s + delta)
      then 0 else SceneController.moveDuration s + delta
    else Math_max 0 (SceneController.moveDuration s - delta * 2).
Proof.
  unfold SceneController.useFrame, SceneController.EVENT_THRESHOLD_SECONDS.
  destruct (SceneController.isMoving handData);
    [destruct (Qltb 10 _)|]; reflexivity.
Qed.

Lemma SceneController_calls {A : Type} (f : A -> A)
    (handData : HandData) (delta : Q) (s : SceneController.State) (a : A) :
  snd (SceneController.useFrame f handData delta s a)
  = if SceneController.isMoving handData
       && Qltb 10 (SceneController.moveDuration s + delta)
    then f a else a.
Proof.
  unfold SceneController.useFrame, SceneController.EVENT_THRESHOLD_SECONDS.
  destruct (SceneController.isMoving handData);
    [destruct (Qltb 10 _)|]; reflexivity.
Qed.

Lemma SceneController_camera {A : Type} (f : A -> A)
    (handData : HandData) (delta : Q) (s : SceneController.State) (a : A) :
  let s' := fst (SceneController.useFrame f handData delta s a) in
  SceneController.camera s'
  = mkVector3
      (v3x (SceneController.camera s)
       + v3x (SceneController.velocity s') * delta)
      10
      (v3z (SceneController.camera s)
       + v3z (SceneController.velocity s') * delta)
  /\ SceneController.velocity s'
     = mkVector3
         (v3x (SceneController.velocity s)
          + (v3x (SceneController.targetVelocity handData)
             - v3x (SceneController.velocity s)) * (1 # 20))
         (v3y (SceneController.velocity s))
         (v3z (SceneController.velocity s)
          + (v3z (SceneController.targetVelocity handData)
             - v3z (SceneController.velocity s)) * (1 # 20)).
Proof.
  unfold SceneController.useFrame.
  destruct (SceneController.isMoving handData);
    [destruct (Qltb _ _)|]; split; reflexivity.
Qed.

Lemma SceneContent_movement {A : Type} (f : A -> A)
    (handData : HandData) (gameState : GameState) (delta : Q)
    (c : SceneContent.State) (a : A) :
  SceneContent.movement
    (fst (SceneContent.useFrame f handData gameState delta c a))
  = if isDetected handData then
      if Qltb 10 (SceneContent.updated handData delta (SceneContent.movement c))
         && GameState_eqb gameState NORMAL
      then 0
      else SceneContent.updated handData delta (SceneContent.movement c)
    else SceneContent.movement c.
Proof.
  unfold SceneContent.useFrame.
  destruct (isDetected handData); [|reflexivity].
  destruct (Qltb 10 _ && _); reflexivity.
Qed.

Lemma SceneContent_calls {A : Type} (f : A -> A)
    (handData : HandData) (gameState : GameState) (delta : Q)
    (c : SceneContent.State) (a : A) :
  snd (SceneContent.useFrame f handData gameState delta c a)
  = if isDetected handData
       && (Qltb 10
             (SceneContent.updated handData delta (SceneContent.movement c))
           && GameState_eqb gameState NORMAL)
    then f a else a.
Proof.
  unfold SceneContent.useFrame.
  destruct (isDetected handData); [|reflexivity].
  destruct (Qltb 10 _ && _); reflexivity.
Qed.

Lemma SceneContent_camera {A : Type} (f : A -> A)
    (handData : HandData) (gameState : GameState) (delta : Q)
    (c : SceneContent.State) (a : A) :
  SceneContent.cameraPosition
    (fst (SceneContent.useFrame f handData gameState delta c a))
  = mkVector3
      (v3x (SceneContent.cameraPosition c)
       + (SceneContent.panTargetX handData
          - v3x (SceneContent.cameraPosition c)) * delta * SceneContent.speed)
      (v3y (SceneContent.cameraPosition c)
       + (SceneContent.panTargetY handData
          - v3y (SceneContent.cameraPosition c)) * delta * SceneContent.speed)
      (v3z (SceneContent.cameraPosition c)).
Proof.
  unfold SceneContent.useFrame.
  destruct (isDetected handData); [destruct (Qltb 10 _ && _)|]; reflexivity.
Qed.

Lemma SceneContent_frames_cons {A : Type} (f : A -> A)
    (handData : HandData) (gameState : GameState) (d : Q) (ds : list Q)
    (c : SceneContent.State) (a : A) :
  SceneContent.frames f handData gameState (d :: ds) c a
  = SceneContent.frames f handData gameState ds
      (fst (SceneContent.useFrame f handData gameState d c a))
      (snd (SceneContent.useFrame f handData gameState d c a)).
Proof.
  unfold SceneContent.frames. cbn [fold_left fst snd].
  destruct (SceneContent.useFrame f handData gameState d c a); reflexivity.
Qed.

(** ** Frames of zero or negative elapsed time *)

(** C1, as stated, fails for [delta < 0]: no frame callback tests the sign
    of [delta], and a negative one integrates backwards.  With
    [delta = -1]: the distortion scale of a storm goes from 3.7 to -0.6,
    a rain drop at height 100 rises to 250, and the camera of a controller
    steered to the right moves left. *)
Lemma negative_delta_changes_scene :
  -1 <= 0
  /\ ~ OceanMesh.distortionScale
         (OceanMesh.useFrame STORM (-1) (OceanMesh.mkUniforms 0 (37 # 10)))
       == 37 # 10
  /\ (exists y', Rain.height 0
                   (Rain.useFrame (-1) (replicate (Rain.count * 3) 100))
                 = Some y' /\ y' == 250 /\ ~ y' == 100)
  /\ ~ v3x (SceneController.camera
              (fst (SceneController.useFrame (fun a : unit => a)
                      (mkHandData true (mkVector2 1 (1 # 2)) (mkVector2 1 0))
                      (-1) SceneController.initial tt)))
       == v3x (SceneController.camera SceneController.initial).
Proof.
  split; [discriminate|]. split; [vm_compute; discriminate|].
  split; [|vm_compute; discriminate].
  assert (H0 : Rain.height 0 (replicate (Rain.count * 3) 100) = Some 100)
    by (vm_compute; reflexivity).
  exists (fall (-1) 100). split.
  - apply Rain_useFrame_height; [exact Rain_count_pos|exact H0].
  - split; [reflexivity|vm_compute; discriminate].
Qed.

(** C1, amended. A frame with [delta = 0] leaves every animated quantity
    as it was: the camera position in both scenes (the controller of
    OceanEnvironment.tsx pins the height to 10, where the camera starts),
    the [time] and [distortionScale] uniforms of the water in both scenes,
    and every rain height that is not negative.  Nothing is claimed for
    [delta < 0]. *)
Theorem zero_delta_changes_nothing {A : Type} (f : A -> A) (a : A)
    (handData : HandData) (gameState : GameState)
    (s : SceneController.State) (c : SceneContent.State)
    (u : OceanMesh.Uniforms) (positions : list Q) (k : nat) (y : Q) :
  v3y (SceneController.camera s) == 10 ->
  (k < Rain.count)%nat ->
  Rain.height k positions = Some y ->
  0 <= y ->
  let s' := fst (SceneController.useFrame f handData 0 s a) in
  let c' := fst (SceneContent.useFrame f handData gameState 0 c a) in
  (v3x (SceneController.camera s') == v3x (SceneController.camera s)
   /\ v3y (SceneController.camera s') == v3y (SceneController.camera s)
   /\ v3z (SceneController.camera s') == v3z (SceneController.camera s))
  /\ (v3x (SceneContent.cameraPosition c')
        == v3x (SceneContent.cameraPosition c)
      /\ v3y (SceneContent.cameraPosition c')
           == v3y (SceneContent.cameraPosition c)
      /\ v3z (SceneContent.cameraPosition c')
           == v3z (SceneContent.cameraPosition c))
  /\ (OceanMesh.distortionScale (OceanMesh.useFrame gameState 0 u)
        == OceanMesh.distortionScale u
      /\ OceanMesh.distortionScale (OceanMesh.useFrame_alt gameState 0 u)
           == OceanMesh.distortionScale u
      /\ OceanMesh.time (OceanMesh.useFrame gameState 0 u) == OceanMesh.time u)
  /\ (exists y', Rain.height k (Rain.useFrame 0 positions) = Some y'
                 /\ y' == y).
Proof.
  intros Hy10 Hk Hy H0. cbv zeta.
  destruct (SceneController_camera f handData 0 s a) as [-> _].
  rewrite SceneContent_camera. cbn [v3x v3y v3z].
  unfold OceanMesh.useFrame, OceanMesh.useFrame_alt, MathUtils.lerp.
  cbn [OceanMesh.distortionScale OceanMesh.time].
  repeat apply conj; try ring.
  - symmetry. exact Hy10.
  - exists (fall 0 y). split; [apply Rain_useFrame_height; assumption|].
    destruct (fall_cases 0 y) as [[H _]|[_ ->]]; [lra|ring].
Qed.

Lemma zero_delta_changes_nothing_witness :
  exists y', Rain.height 0 (Rain.useFrame 0 (replicate (Rain.count * 3) 100))
             = Some y' /\ y' == 100.
Proof.
  assert (H0 : Rain.height 0 (replicate (Rain.count * 3) 100) = Some 100)
    by (vm_compute; reflexivity).
  assert (Hc : v3y (SceneController.camera SceneController.initial) == 10)
    by reflexivity.
  assert (Hy : 0 <= 100) by discriminate.
  exact (proj2 (proj2 (proj2
    (zero_delta_changes_nothing (fun a : unit => a) tt
       (mkHandData true (mkVector2 1 (1 # 2)) (mkVector2 1 0)) STORM
       SceneController.initial SceneContent.initial
       (OceanMesh.mkUniforms 0 (37 # 10))
       (replicate (Rain.count * 3) 100) 0 100
       Hc Rain_count_pos H0 Hy)))).
Defined.

(** ** Camera smoothing and the length of frames *)



(** ** The gesture accumulator *)

(** Splits a conjunction of bounds and implications and closes each part
    by arithmetic. *)
Ltac settle :=
  repeat apply conj; intros; repeat apply conj;
  solve [reflexivity | discriminate | lra | lia].

(** C5, as stated, fails in the scene of part_000: its threshold test also
    asks for [gameState === NORMAL], so during a storm the accumulator goes
    past 10 and stays there without any call of the trigger.  From 9.99 a
    frame of 10.5 ms with a moving hand gives 10.0005 and no call. *)
Lemma accumulator_exceeds_threshold_in_storm :
  let r := SceneContent.useFrame S
             (mkHandData true (mkVector2 (19 # 20) (1 # 2))
                (mkVector2 (9 # 10) 0))
             STORM (21 # 2000)
             (SceneContent.mkState (999 # 100) (mkVector3 0 10 100)
                (mkVector3 0 10 (-50)))
             0%nat in
  SceneContent.movement (fst r) == 20001 # 2000
  /\ 10 < SceneContent.movement (fst r)
  /\ snd r = 0%nat.
Proof. cbv zeta. repeat apply conj; vm_compute; reflexivity. Qed.

(** C5, amended. For [delta >= 0] and an accumulator that is not negative,
    the accumulator is not negative after the frame and the trigger is
    called at most once in it.  In OceanEnvironment.tsx, from an
    accumulator of at most 10: a moving hand that takes it past 10 makes
    the frame call the trigger exactly once and leave it at 0, and it is at
    most 10 after every frame.  In part_000 the same holds while the game
    state is NORMAL; during a storm the trigger is not called and the
    accumulator is left where the update put it. *)
Theorem accumulator_fires_and_resets
    (handData : HandData) (gameState : GameState) (delta : Q)
    (s : SceneController.State) (c : SceneContent.State) :
  0 <= delta ->
  0 <= SceneController.moveDuration s ->
  SceneController.moveDuration s <= 10 ->
  0 <= SceneContent.movement c ->
  let r := SceneController.useFrame S handData delta s 0%nat in
  let r' := SceneContent.useFrame S handData gameState delta c 0%nat in
  (0 <= SceneController.moveDuration (fst r)
   /\ SceneController.moveDuration (fst r) <= 10
   /\ (snd r <= 1)%nat
   /\ (SceneController.isMoving handData = true ->
       10 < SceneController.moveDuration s + delta ->
       snd r = 1%nat /\ SceneController.moveDuration (fst r) = 0)
   /\ (snd r = 1%nat -> SceneController.moveDuration (fst r) = 0))
  /\ (0 <= SceneContent.movement (fst r')
      /\ (snd r' <= 1)%nat
      /\ (snd r' = 1%nat ->
          SceneContent.movement (fst r') = 0 /\ gameState = NORMAL)
      /\ (gameState = NORMAL -> isDetected handData = true ->
          10 < SceneContent.updated handData delta (SceneContent.movement c) ->
          snd r' = 1%nat /\ SceneContent.movement (fst r') = 0)
      /\ (gameState = NORMAL -> SceneContent.movement c <= 10 ->
          SceneContent.movement (fst r') <= 10)
      /\ (gameState = STORM ->
          snd r' = 0%nat
          /\ SceneContent.movement (fst r')
             = if isDetected handData
               then SceneContent.updated handData delta
                      (SceneContent.movement c)
               else SceneContent.movement c)).
Proof.
  intros Hd H0 H10 C0. cbv zeta.
  rewrite SceneController_moveDuration, SceneController_calls.
  rewrite SceneContent_movement, SceneContent_calls.
  split.
  - destruct (SceneController.isMoving handData); cbn [andb].
    + case_ltb 10 (SceneController.moveDuration s + delta); settle.
    + destruct (Math_max_cases 0 (SceneController.moveDuration s - delta * 2))
        as [[? ->]|[? ->]]; settle.
  - assert (U0 : 0 <= SceneContent.updated handData delta
                        (SceneContent.movement c)).
    { unfold SceneContent.updated.
      destruct (SceneContent.isMoving handData); [lra|].
      destruct (Math_max_cases 0 (SceneContent.movement c - delta))
        as [[? ->]|[? ->]]; lra. }
    destruct (isDetected handData); cbn [andb].
    + case_ltb 10 (SceneContent.updated handData delta
                     (SceneContent.movement c));
        destruct gameState; cbn [GameState_eqb andb]; settle.
    + destruct gameState; settle.
Qed.

Lemma accumulator_fires_and_resets_witness :
  let hand := mkHandData true (mkVector2 (19 # 20) (1 # 2))
                (mkVector2 (9 # 10) 0) in
  let s := SceneController.mkState 10 (mkVector3 0 0 0) (mkVector3 0 10 100) in
  snd (SceneController.useFrame S hand (1 # 60) s 0%nat) = 1%nat
  /\ SceneController.moveDuration
       (fst (SceneController.useFrame S hand (1 # 60) s 0%nat)) = 0.
Proof.
  cbv zeta.
  assert (Hd : 0 <= 1 # 60) by discriminate.
  assert (H0 : 0 <= 10) by discriminate.
  assert (H1 : 10 <= 10) by discriminate.
  assert (H2 : 0 <= 0) by discriminate.
  assert (Hm : SceneController.isMoving
                 (mkHandData true (mkVector2 (19 # 20) (1 # 2))
                    (mkVector2 (9 # 10) 0)) = true) by reflexivity.
  assert (Hx : 10 < 10 + (1 # 60)) by reflexivity.
  exact (proj1 (proj2 (proj2 (proj2 (proj1
    (accumulator_fires_and_resets
       (mkHandData true (mkVector2 (19 # 20) (1 # 2)) (mkVector2 (9 # 10) 0))
       NORMAL (1 # 60)
       (SceneController.mkState 10 (mkVector3 0 0 0) (mkVector3 0 10 100))
       SceneContent.initial Hd H0 H1 H2))))) Hm Hx).
Defined.

(** C6, as stated, fails in the scene of part_000 when no hand is
    detected: the whole trigger logic of that frame is inside
    [if (handData.isDetected)], so the accumulator keeps its value.  At 5,
    a frame of 1/60 s without a hand leaves 5. *)
Lemma accumulator_frozen_without_hand :
  let hand := mkHandData false (mkVector2 (1 # 2) (1 # 2)) (mkVector2 0 0) in
  let c := SceneContent.mkState 5 (mkVector3 0 10 100) (mkVector3 0 10 (-50)) in
  let c' := fst (SceneContent.useFrame (fun a : unit => a) hand NORMAL
                   (1 # 60) c tt) in
  SceneContent.isMoving hand = false
  /\ 0 < 1 # 60
  /\ 0 < SceneContent.movement c
  /\ SceneContent.movement c' = SceneContent.movement c
  /\ ~ SceneContent.movement c' < SceneContent.movement c.
Proof.
  cbv zeta. repeat apply conj; vm_compute; solve [reflexivity | discriminate].
Qed.

(** C6, amended. For [delta >= 0] and an accumulator that is not
    negative.  In OceanEnvironment.tsx every frame without movement (no
    hand, or a magnitude of at most 0.15) replaces the accumulator by
    [max(0, acc - 2 * delta)]: it does not grow, it decays at twice the
    accumulation rate, and it strictly decreases when it is positive and
    [delta > 0].  In part_000 a frame with a detected hand inside the
    deadzone (both coordinates at most 0.2 in absolute value) leaves at most
    [max(0, acc - delta)], with the same consequences at rate 1; a frame
    without a detected hand leaves the accumulator unchanged. *)
Theorem accumulator_decays_without_movement {A : Type} (f : A -> A) (a : A)
    (handData : HandData) (gameState : GameState) (delta : Q)
    (s : SceneController.State) (c : SceneContent.State) :
  0 <= delta ->
  0 <= SceneController.moveDuration s ->
  0 <= SceneContent.movement c ->
  let r := SceneController.useFrame f handData delta s a in
  let r' := SceneContent.useFrame f handData gameState delta c a in
  (isDetected handData = false
   \/ SceneController.beyond_deadzone (directionVector handData) = false ->
   SceneController.moveDuration (fst r)
   = Math_max 0 (SceneController.moveDuration s - delta * 2)
   /\ 0 <= SceneController.moveDuration (fst r)
   /\ SceneController.moveDuration (fst r) <= SceneController.moveDuration s
   /\ SceneController.moveDuration (fst r)
      <= Math_max 0 (SceneController.moveDuration s - delta)
   /\ (0 < delta -> 0 < SceneController.moveDuration s ->
       SceneController.moveDuration (fst r) < SceneController.moveDuration s)
   /\ snd r = a)
  /\ (isDetected handData = true -> SceneContent.isMoving handData = false ->
      0 <= SceneContent.movement (fst r')
      /\ SceneContent.movement (fst r') <= SceneContent.movement c
      /\ SceneContent.movement (fst r')
         <= Math_max 0 (SceneContent.movement c - delta)
      /\ (0 < delta -> 0 < SceneContent.movement c ->
          SceneContent.movement (fst r') < SceneContent.movement c))
  /\ (isDetected handData = false ->
      SceneContent.movement (fst r') = SceneContent.movement c
      /\ snd r' = a).
Proof.
  intros Hd H0 C0. cbv zeta.
  rewrite SceneController_moveDuration, SceneController_calls.
  rewrite SceneContent_movement, SceneContent_calls.
  split; [|split].
  - intros Hstill.
    assert (Hm : SceneController.isMoving handData = false)
      by (unfold SceneController.isMoving;
          destruct Hstill as [-> | ->];
          [reflexivity | apply andb_false_r]).
    rewrite Hm. cbn [andb].
    destruct (Math_max_cases 0 (SceneController.moveDuration s - delta * 2))
      as [[? ->]|[? ->]];
      destruct (Math_max_cases 0 (SceneController.moveDuration s - delta))
        as [[? ->]|[? ->]]; settle.
  - intros -> Hm. unfold SceneContent.updated. rewrite Hm. cbn [andb].
    destruct (Math_max_cases 0 (SceneContent.movement c - delta))
      as [[? E]|[? E]]; rewrite !E.
    + case_ltb 10 (SceneContent.movement c - delta);
        destruct gameState; cbn [GameState_eqb andb]; settle.
    + case_ltb 10 0;
        destruct gameState; cbn [GameState_eqb andb]; settle.
  - intros ->. cbn [andb]. split; reflexivity.
Qed.

Lemma accumulator_decays_without_movement_witness :
  let hand := mkHandData false (mkVector2 (1 # 2) (1 # 2)) (mkVector2 0 0) in
  let s := SceneController.mkState 5 (mkVector3 0 0 0) (mkVector3 0 10 100) in
  SceneController.moveDuration
    (fst (SceneController.useFrame (fun a : unit => a) hand 1 s tt))
  < SceneController.moveDuration s.
Proof.
  cbv zeta.
  assert (Hd : 0 <= 1) by discriminate.
  assert (H0 : 0 <= 5) by discriminate.
  assert (H1 : 0 <= 0) by discriminate.
  assert (Hm : isDetected
                 (mkHandData false (mkVector2 (1 # 2) (1 # 2)) (mkVector2 0 0))
               = false
               \/ SceneController.beyond_deadzone
                    (directionVector
                       (mkHandData false (mkVector2 (1 # 2) (1 # 2))
                          (mkVector2 0 0))) = false)
    by (left; reflexivity).
  assert (Hp : 0 < 1) by reflexivity.
  assert (Hq : 0 < 5) by reflexivity.
  exact (proj1 (proj2 (proj2 (proj2 (proj2 (proj1
    (accumulator_decays_without_movement (fun a : unit => a) tt
       (mkHandData false (mkVector2 (1 # 2) (1 # 2)) (mkVector2 0 0))
       NORMAL 1
       (SceneController.mkState 5 (mkVector3 0 0 0) (mkVector3 0 10 100))
       SceneContent.initial Hd H0 H1) Hm))))) Hp Hq).
Defined.

(** ** The storm timer of App *)

Section TimerQueue.
Import App.

Lemma pick_None (ts : list (Q * Timer)) : pick ts = None -> ts = [].
Proof.
  destruct ts as [|t ts]; [reflexivity|]. cbn [pick].
  destruct (pick ts) as [[u rest]|]; [|discriminate].
  destruct (Qltb (fst u) (fst t)); discriminate.
Qed.

Lemma pick_Permutation (ts : list (Q * Timer)) u rest :
  pick ts = Some (u, rest) -> Permutation ts (u :: rest).
Proof.
  revert u rest. induction ts as [|t ts IH]; intros u rest; [discriminate|].
  cbn [pick]. destruct (pick ts) as [[v rest']|] eqn:E.
  - destruct (Qltb (fst v) (fst t)); intros [= <- <-].
    + rewrite (IH v rest' eq_refl). apply perm_swap.
    + reflexivity.
  - apply pick_None in E. subst ts. intros [= <- <-]. reflexivity.
Qed.

Lemma pick_earliest (ts : list (Q * Timer)) u rest :
  pick ts = Some (u, rest) -> forall v, In v ts -> fst u <= fst v.
Proof.
  revert u rest. induction ts as [|t ts IH]; intros u rest; [discriminate|].
  cbn [pick]. destruct (pick ts) as [[w rest']|] eqn:E.
  - specialize (IH w rest' eq_refl).
    case_ltb (fst w) (fst t); intros [= <- <-] v [<-|Hv].
    + lra.
    + apply IH, Hv.
    + lra.
    + specialize (IH v Hv). lra.
  - apply pick_None in E. subst ts. intros [= <- <-] v [<-|[]].
    apply Qle_refl.
Qed.

Lemma list_sum_Permutation (l l' : list nat) :
  Permutation l l' -> list_sum l = list_sum l'.
Proof.
  unfold list_sum. induction 1; cbn in *; lia.
Qed.

Lemma weight_pick (ts : list (Q * Timer)) d act rest :
  pick ts = Some ((d, act), rest) ->
  weight ts
  = ((match act with EndStorm => 2 | RestoreMsg => 1 end) + weight rest)%nat.
Proof.
  intros H. apply pick_Permutation in H. unfold weight.
  rewrite (list_sum_Permutation _ _ (Permutation_map _ H)). reflexivity.
Qed.

Lemma pending_ends_pick (ts : list (Q * Timer)) d act rest :
  pick ts = Some ((d, act), rest) ->
  pending_ends ts
  = ((match act with EndStorm => 1 | RestoreMsg => 0 end)
     + pending_ends rest)%nat.
Proof.
  intros H. apply pick_Permutation in H. unfold pending_ends.
  rewrite (list_sum_Permutation _ _ (Permutation_map _ H)). reflexivity.
Qed.

Lemma pick_In (ts : list (Q * Timer)) u rest :
  pick ts = Some (u, rest) -> forall v, In v ts <-> v = u \/ In v rest.
Proof.
  intros H v. apply pick_Permutation in H. split.
  - intros Hv. apply (Permutation_in _ H) in Hv. destruct Hv; auto.
  - intros Hv. apply (Permutation_in _ (Permutation_sym H)).
    destruct Hv; [left|right]; auto.
Qed.

Lemma pending_ends_cons d act (ts : list (Q * Timer)) :
  pending_ends ((d, act) :: ts)
  = ((match act with EndStorm => 1 | RestoreMsg => 0 end)
     + pending_ends ts)%nat.
Proof. reflexivity. Qed.

Lemma weight_cons d act (ts : list (Q * Timer)) :
  weight ((d, act) :: ts)
  = ((match act with EndStorm => 2 | RestoreMsg => 1 end) + weight ts)%nat.
Proof. reflexivity. Qed.

Lemma pending_ends_app (ts us : list (Q * Timer)) :
  pending_ends (ts ++ us) = (pending_ends ts + pending_ends us)%nat.
Proof. unfold pending_ends. rewrite map_app, list_sum_app. reflexivity. Qed.

Lemma pending_ends_none (ts : list (Q * Timer)) d :
  pending_ends ts = 0%nat -> ~ In (d, EndStorm) ts.
Proof.
  induction ts as [|[e k] ts IH]; intros H [].
  - injection H0 as -> ->. discriminate H.
  - rewrite pending_ends_cons in H.
    destruct k; [discriminate H|]. apply IH; assumption.
Qed.

Lemma pending_ends_single (ts : list (Q * Timer)) d e :
  pending_ends ts = 1%nat ->
  In (d, EndStorm) ts -> In (e, EndStorm) ts -> d = e.
Proof.
  induction ts as [|[x k] ts IH]; intros H Hd He; [destruct Hd|].
  rewrite pending_ends_cons in H. destruct k.
  - assert (Hz : pending_ends ts = 0%nat) by lia.
    destruct Hd as [[= ->]|Hd]; [|exfalso; eapply pending_ends_none; eauto].
    destruct He as [[= ->]|He]; [|exfalso; eapply pending_ends_none; eauto].
    reflexivity.
  - destruct Hd as [[=]|Hd]. destruct He as [[=]|He].
    apply IH; assumption.
Qed.

Lemma weight_of_end (ts : list (Q * Timer)) d :
  In (d, EndStorm) ts -> (2 <= weight ts)%nat.
Proof.
  induction ts as [|[x k] ts IH]; intros []; rewrite weight_cons.
  - injection H as -> ->. lia.
  - specialize (IH H). lia.
Qed.

Lemma end_due_false (t : Q) (ts : list (Q * Timer)) d :
  end_due t ts = false -> In (d, EndStorm) ts -> t < d.
Proof.
  unfold end_due. induction ts as [|[x k] ts IH]; intros H [];
    cbn [existsb snd fst] in H; apply orb_false_iff in H as [H1 H2].
  - injection H0 as -> ->. apply negb_false_iff in H1.
    apply Qltb_true. exact H1.
  - apply IH; assumption.
Qed.

(** While no pending [EndStorm] is due, running the due timers changes
    neither the game state nor the pending [EndStorm] timers. *)
Lemma run_due_before_end (fuel : nat) (t : Q) (s : State) :
  (forall d, In (d, EndStorm) (timers s) -> t < d) ->
  gameState (run_due fuel t s) = gameState s
  /\ pending_ends (timers (run_due fuel t s)) = pending_ends (timers s)
  /\ (forall d, In (d, EndStorm) (timers s) ->
                In (d, EndStorm) (timers (run_due fuel t s))).
Proof.
  revert s. induction fuel as [|fuel IH]; intros s Hs; [auto|].
  cbn [run_due]. destruct (pick (timers s)) as [[[due act] rest]|] eqn:E;
    [|auto].
  case_ltb t due; [auto|].
  pose proof (pick_In _ _ _ E) as HIn.
  destruct act.
  - exfalso. specialize (Hs due (proj2 (HIn _) (or_introl eq_refl))). lra.
  - cbn [fire gameState msg timers].
    destruct (IH (mkState (gameState s) defaultMsg rest)) as (G & P & I).
    + cbn [timers]. intros d Hd. apply Hs, HIn. right. exact Hd.
    + cbn [gameState timers] in *. rewrite G, P.
      rewrite (pending_ends_pick _ _ _ _ E).
      repeat apply conj; try reflexivity.
      intros d Hd. apply I. apply HIn in Hd.
      destruct Hd as [[=]|Hd]. exact Hd.
Qed.

Lemma weight_app (ts us : list (Q * Timer)) :
  weight (ts ++ us) = (weight ts + weight us)%nat.
Proof. unfold weight. rewrite map_app, list_sum_app. reflexivity. Qed.

(** The fuel of [advance] is enough: when it returns, no pending timer is
    due by [t]. *)
Lemma run_due_complete (fuel : nat) (t : Q) (s : State) :
  (weight (timers s) <= fuel)%nat ->
  forall x, In x (timers (run_due fuel t s)) -> t < fst x.
Proof.
  revert s. induction fuel as [|fuel IH]; intros s Hw x Hx.
  - cbn [run_due] in Hx. destruct (timers s) as [|[d k] ts]; [destruct Hx|].
    rewrite weight_cons in Hw. destruct k; lia.
  - cbn [run_due] in Hx.
    destruct (pick (timers s)) as [[[due act] rest]|] eqn:E.
    + pose proof (weight_pick _ _ _ _ E) as HW.
      case_ltb t due.
      * pose proof (pick_earliest _ _ _ E x Hx) as Hmin. cbn [fst] in Hmin.
        lra.
      * eapply IH; [|exact Hx].
        destruct act; cbn [fire timers]; rewrite ?weight_app;
          cbn; lia.
    + apply pick_None in E. rewrite E in Hx. destruct Hx.
Qed.

Lemma advance_complete (t : Q) (s : State) :
  forall x, In x (timers (advance t s)) -> t < fst x.
Proof. apply run_due_complete. reflexivity. Qed.

(** With a single pending [EndStorm], due by [t], the clock reaching [t]
    ends the storm. *)
Lemma run_due_ends_storm (fuel : nat) (t T : Q) (s : State) :
  pending_ends (timers s) = 1%nat ->
  In (T, EndStorm) (timers s) ->
  T <= t ->
  (weight (timers s) <= fuel)%nat ->
  gameState (run_due fuel t s) = NORMAL.
Proof.
  revert s. induction fuel as [|fuel IH]; intros s P HT Ht Hw.
  - apply weight_of_end in HT. lia.
  - cbn [run_due].
    destruct (pick (timers s)) as [[[due act] rest]|] eqn:E.
    + pose proof (pick_earliest _ _ _ E _ HT) as Hmin. cbn [fst] in Hmin.
      pose proof (pick_In _ _ _ E) as HIn.
      pose proof (pending_ends_pick _ _ _ _ E) as HP.
      pose proof (weight_pick _ _ _ _ E) as HW.
      case_ltb t due; [lra|].
      destruct act; cbn [fire gameState msg timers].
      * match goal with
        | |- gameState (run_due ?f ?t ?s1) = _ =>
            destruct (run_due_before_end f t s1) as (G & _)
        end.
        { cbn [timers]. intros d Hd. exfalso.
          apply (pending_ends_none (rest ++ [(due + 4000, RestoreMsg)]) d);
            [|exact Hd].
          rewrite pending_ends_app. cbn. lia. }
        rewrite G. reflexivity.
      * apply IH; cbn [timers].
        -- lia.
        -- apply HIn in HT. destruct HT as [[=]|HT]. exact HT.
        -- exact Ht.
        -- lia.
    + apply pick_None in E. rewrite E in HT. destruct HT.
Qed.
End TimerQueue.

Lemma triggerStorm_in_storm (now : Q) (s : App.State) :
  App.gameState s = STORM -> App.triggerStorm now s = s.
Proof. unfold App.triggerStorm. intros ->. reflexivity. Qed.

Lemma triggerStorm_enters (now : Q) (s : App.State) :
  App.gameState s = NORMAL ->
  App.pending_ends (App.timers s) = 0%nat ->
  storm_pending (now + App.stormDuration) (App.triggerStorm now s).
Proof.
  intros G P. unfold App.triggerStorm. rewrite G. cbn [GameState_eqb].
  repeat apply conj; cbn [App.gameState App.timers].
  - reflexivity.
  - rewrite pending_ends_app, P. reflexivity.
  - apply in_or_app. right. left. reflexivity.
Qed.

Lemma storm_pending_step (T : Q) (s : App.State) (e : App.Event) :
  storm_pending T s -> App.event_time e < T -> storm_pending T (App.step s e).
Proof.
  intros (G & P & I) He.
  assert (Hadv : storm_pending T (App.advance (App.event_time e) s)).
  { unfold App.advance.
    destruct (run_due_before_end (App.weight (App.timers s))
                (App.event_time e) s) as (G' & P' & I').
    - intros d Hd. rewrite (pending_ends_single _ _ _ P Hd I). exact He.
    - repeat apply conj; [congruence|congruence|apply I', I]. }
  destruct e as [t|t]; cbn [App.step App.event_time] in *; [exact Hadv|].
  rewrite triggerStorm_in_storm; [exact Hadv|apply Hadv].
Qed.

Lemma storm_pending_run (T : Q) (es : list App.Event) (s : App.State) :
  storm_pending T s ->
  Forall (fun e => App.event_time e < T) es ->
  storm_pending T (App.run es s).
Proof.
  intros Hs Hes. revert s Hs.
  induction Hes as [|e es He Hes IH]; intros s Hs; [exact Hs|].
  cbn [App.run fold_left]. apply IH, storm_pending_step; assumption.
Qed.

Lemma storm_pending_ends (T t : Q) (s : App.State) :
  storm_pending T s -> T <= t -> App.gameState (App.advance t s) = NORMAL.
Proof.
  intros (G & P & I) Ht. unfold App.advance.
  apply (run_due_ends_storm _ t T); auto.
Qed.

Lemma run_due_timers_match (fuel : nat) (t : Q) (s : App.State) :
  timers_match_state s -> timers_match_state (App.run_due fuel t s).
Proof.
  revert s. induction fuel as [|fuel IH]; intros s Hs; [exact Hs|].
  cbn [App.run_due].
  destruct (App.pick (App.timers s)) as [[[due act] rest]|] eqn:E;
    [|exact Hs].
  case_ltb t due; [exact Hs|].
  pose proof (pending_ends_pick _ _ _ _ E) as HP.
  unfold timers_match_state in Hs.
  apply IH. unfold timers_match_state.
  destruct act; cbn [App.fire App.gameState App.timers App.msg].
  - rewrite pending_ends_app. cbn.
    destruct (App.gameState s); lia.
  - lia.
Qed.

Lemma reachable_timers_match (es : list App.Event) :
  timers_match_state (App.run es App.initial).
Proof.
  assert (H : timers_match_state App.initial) by reflexivity.
  revert H. generalize App.initial.
  induction es as [|e es IH]; intros s Hs; [exact Hs|].
  cbn [App.run fold_left]. apply IH.
  assert (Hadv : forall t, timers_match_state (App.advance t s))
    by (intros t; apply run_due_timers_match, Hs).
  destruct e as [t|t]; cbn [App.step]; [apply Hadv|].
  specialize (Hadv t). unfold App.triggerStorm.
  destruct (App.gameState (App.advance t s)) eqn:G; cbn [GameState_eqb].
  - unfold timers_match_state in *. rewrite G in Hadv.
    cbn [App.gameState App.timers]. rewrite pending_ends_app, Hadv.
    reflexivity.
  - exact Hadv.
Qed.

(** ** The scenes mounted in App *)

Lemma Mounted_frame (now : Q) (handData : HandData) (delta : Q)
    (w : Mounted.World) :
  let fires := SceneController.isMoving handData
               && Qltb 10 (SceneController.moveDuration (Mounted.controller w)
                           + delta) in
  snd (Mounted.frame now handData delta w) = (if fires then 1%nat else 0%nat)
  /\ Mounted.app (fst (Mounted.frame now handData delta w))
     = if fires then App.triggerStorm now (Mounted.app w) else Mounted.app w.
Proof.
  cbv zeta. unfold Mounted.frame.
  pose proof (SceneController_calls (counted (App.triggerStorm now)) handData
                delta (Mounted.controller w) (0%nat, Mounted.app w)) as H.
  destruct (SceneController.useFrame _ _ _ _ _) as [c [n a]].
  cbn [snd fst Mounted.app] in *.
  destruct (_ && _); cbn in H; injection H as -> ->; split; reflexivity.
Qed.

Lemma Mounted_frame_alt (now : Q) (handData : HandData) (delta : Q)
    (w : Mounted.World_alt) :
  let fires :=
    isDetected handData
    && (Qltb 10 (SceneContent.updated handData delta
                   (SceneContent.movement (Mounted.content w)))
        && GameState_eqb (App.gameState (Mounted.app_alt w)) NORMAL) in
  snd (Mounted.frame_alt now handData delta w)
  = (if fires then 1%nat else 0%nat)
  /\ Mounted.app_alt (fst (Mounted.frame_alt now handData delta w))
     = if fires then App.triggerStorm now (Mounted.app_alt w)
       else Mounted.app_alt w.
Proof.
  cbv zeta. unfold Mounted.frame_alt.
  pose proof (SceneContent_calls (counted (App.triggerStorm now)) handData
                (App.gameState (Mounted.app_alt w)) delta (Mounted.content w)
                (0%nat, Mounted.app_alt w)) as H.
  destruct (SceneContent.useFrame _ _ _ _ _ _) as [c [n a]].
  cbn [snd fst Mounted.app_alt] in *.
  destruct (_ && _); cbn in H; injection H as -> ->; split; reflexivity.
Qed.

(** C3, as stated, fails in OceanEnvironment.tsx: [SceneController] is not
    given the game state, and its frame calls [onEventTrigger] whenever the
    accumulator passes 10.  A storm is triggered at 1 ms by a frame that
    reset the accumulator; the hand keeps moving; at 10000.6 ms the storm
    timer (due at 10001 ms) has not run, the accumulator stands at 9.99 s
    and a frame of 10.5 ms takes it past 10: the frame calls the trigger
    once, during the storm. *)
Lemma controller_triggers_during_storm :
  let a := App.advance (100006 # 10) (App.triggerStorm 1 App.initial) in
  let hand := mkHandData true (mkVector2 (19 # 20) (1 # 2))
                (mkVector2 (9 # 10) 0) in
  let w := Mounted.mkWorld
             (SceneController.mkState (999 # 100) (mkVector3 0 0 0)
                (mkVector3 0 10 100)) a in
  App.gameState a = STORM
  /\ snd (Mounted.frame (100006 # 10) hand (21 # 2000) w) = 1%nat.
Proof. cbv zeta. split; vm_compute; reflexivity. Qed.

(** C3, amended. During a storm a call of [triggerStorm] changes nothing:
    the state, the message and the pending timers stay as they are, so
    there is no second entry and the storm timer is not restarted.  The
    frame of part_000 does not call the trigger during a storm; the frame
    of OceanEnvironment.tsx may call it, and the application is left
    unchanged by that frame.  A trigger never yields NORMAL, and the clock
    reaching [t] turns a storm into NORMAL only if an [EndStorm] timer was
    due by [t]. *)
Theorem storm_ignores_triggers (now t : Q) (a : App.State)
    (handData : HandData) (delta : Q)
    (sc : SceneController.State) (c : SceneContent.State) :
  App.gameState a = STORM ->
  App.triggerStorm now a = a
  /\ snd (Mounted.frame_alt now handData delta (Mounted.mkWorld_alt c a))
     = 0%nat
  /\ Mounted.app_alt
       (fst (Mounted.frame_alt now handData delta (Mounted.mkWorld_alt c a)))
     = a
  /\ Mounted.app
       (fst (Mounted.frame now handData delta (Mounted.mkWorld sc a)))
     = a
  /\ (forall a', App.gameState (App.triggerStorm now a') = STORM)
  /\ (App.gameState (App.advance t a) = NORMAL ->
      App.end_due t (App.timers a) = true).
Proof.
  intros G.
  destruct (Mounted_frame now handData delta (Mounted.mkWorld sc a))
    as [_ ->].
  destruct (Mounted_frame_alt now handData delta (Mounted.mkWorld_alt c a))
    as [-> ->].
  cbn [Mounted.app Mounted.app_alt]. rewrite G. cbn [GameState_eqb].
  rewrite !andb_false_r, (triggerStorm_in_storm now a G).
  repeat apply conj; try reflexivity.
  - destruct (_ && _); reflexivity.
  - intros a'. unfold App.triggerStorm.
    destruct (App.gameState a') eqn:G'; cbn [GameState_eqb];
      [reflexivity|exact G'].
  - intros HN. destruct (App.end_due t (App.timers a)) eqn:E; [reflexivity|].
    unfold App.advance in HN.
    destruct (run_due_before_end (App.weight (App.timers a)) t a) as (G' & _).
    + intros d Hd. eapply end_due_false; eassumption.
    + congruence.
Qed.

Lemma storm_ignores_triggers_witness :
  App.triggerStorm 5000 (App.triggerStorm 0 App.initial)
  = App.triggerStorm 0 App.initial.
Proof.
  assert (G : App.gameState (App.triggerStorm 0 App.initial) = STORM)
    by reflexivity.
  exact (proj1
    (storm_ignores_triggers 5000 6000 (App.triggerStorm 0 App.initial)
       (mkHandData true (mkVector2 (19 # 20) (1 # 2)) (mkVector2 (9 # 10) 0))
       (1 # 50) SceneController.initial SceneContent.initial G)).
Defined.

(** C4. From a calm state (NORMAL, no storm timer pending) a trigger at
    time [t0] (in milliseconds) starts a storm that lasts 10000 ms: after
    any events up to a time before [t0 + 10000], further triggers included,
    the state is STORM, and once the clock has reached a time [t] with
    [t0 + 10000 <= t] it is NORMAL. *)
Theorem storm_lasts_ten_seconds (s : App.State) (t0 t : Q)
    (es : list App.Event) :
  App.gameState s = NORMAL ->
  App.pending_ends (App.timers s) = 0%nat ->
  Forall (fun e => App.event_time e < t0 + 10000) es ->
  t0 + 10000 <= t ->
  App.gameState (App.run es (App.triggerStorm t0 s)) = STORM
  /\ App.gameState (App.advance t (App.run es (App.triggerStorm t0 s)))
     = NORMAL.
Proof.
  intros G P Hes Ht.
  pose proof (storm_pending_run _ es _ (triggerStorm_enters t0 s G P) Hes)
    as Hrun.
  split; [apply Hrun|].
  eapply storm_pending_ends; [exact Hrun|exact Ht].
Qed.

Lemma storm_lasts_ten_seconds_witness :
  let es := [App.Trigger 5000; App.Elapse 9990] in
  App.gameState (App.run es (App.triggerStorm 0 App.initial)) = STORM
  /\ App.gameState
       (App.advance 10000 (App.run es (App.triggerStorm 0 App.initial)))
     = NORMAL.
Proof.
  cbv zeta.
  assert (G : App.gameState App.initial = NORMAL) by reflexivity.
  assert (P : App.pending_ends (App.timers App.initial) = 0%nat)
    by reflexivity.
  assert (Hes : Forall (fun e => App.event_time e < 0 + 10000)
                  [App.Trigger 5000; App.Elapse 9990])
    by (repeat constructor).
  assert (Ht : 0 + 10000 <= 10000) by discriminate.
  exact (storm_lasts_ten_seconds App.initial 0 10000
           [App.Trigger 5000; App.Elapse 9990] G P Hes Ht).
Defined.

(** ** Lightning *)

Lemma Lightning_useFrame_enabled (elapsedTime delta : Q) (rnd : nat -> Q)
    (s : LightningSystem.State) :
  let s' := LightningSystem.useFrame true elapsedTime delta rnd s in
  LightningSystem.flashIntensity s'
  = MathUtils.lerp
      (if LightningSystem.flashes elapsedTime s
       then LightningSystem.peak else LightningSystem.flashIntensity s)
      0 (delta * 5)
  /\ LightningSystem.nextFlashTime s'
     = (if LightningSystem.flashes elapsedTime s
        then elapsedTime + rnd 2%nat * (5 # 2) + (1 # 2)
        else LightningSystem.nextFlashTime s)
  /\ LightningSystem.lightIntensity s'
     = LightningSystem.flashIntensity s' * 10.
Proof.
  unfold LightningSystem.useFrame. cbn [negb].
  destruct (LightningSystem.flashes elapsedTime s);
    repeat apply conj; reflexivity.
Qed.

(** What the frames of the lightning do to the intensity when [delta] is
    at most 0.2 s: a flash sets the peak, which the same frame starts to
    decay; otherwise the intensity does not grow and stays non-negative;
    a disabled system has intensity 0. *)
Lemma flash_intensity_short_frames (elapsedTime delta : Q) (rnd : nat -> Q)
    (s : LightningSystem.State) :
  0 <= delta -> delta <= 1 # 5 ->
  0 <= LightningSystem.flashIntensity s ->
  let s' := LightningSystem.useFrame true elapsedTime delta rnd s in
  0 <= LightningSystem.flashIntensity s'
  /\ (LightningSystem.flashes elapsedTime s = false ->
      LightningSystem.flashIntensity s' <= LightningSystem.flashIntensity s)
  /\ (LightningSystem.flashes elapsedTime s = true ->
      LightningSystem.flashIntensity s'
      = MathUtils.lerp LightningSystem.peak 0 (delta * 5))
  /\ LightningSystem.flashIntensity
       (LightningSystem.useFrame false elapsedTime delta rnd s) = 0.
Proof.
  intros Hd Hd' HI. cbv zeta.
  destruct (Lightning_useFrame_enabled elapsedTime delta rnd s) as (-> & _).
  unfold MathUtils.lerp, LightningSystem.peak.
  destruct (LightningSystem.flashes elapsedTime s);
    repeat apply conj; intros; try reflexivity; try discriminate; nra.
Qed.

(** C8, as stated, fails at the lower end: [Math.random()] can return 0,
    and then the next flash is scheduled exactly 0.5 s after the clock. *)
Lemma next_flash_at_minimum_delay :
  let s' := LightningSystem.useFrame true 1 (1 # 60) (fun _ => 0)
              LightningSystem.initial in
  unit_draw 0
  /\ LightningSystem.flashes 1 LightningSystem.initial = true
  /\ LightningSystem.nextFlashTime s' == 1 + (1 # 2)
  /\ ~ 1 + (1 # 2) < LightningSystem.nextFlashTime s'.
Proof.
  cbv zeta. repeat apply conj; try (vm_compute; reflexivity);
    vm_compute; discriminate.
Qed.

(** C8, amended. At a flash in OceanEnvironment.tsx the next flash time
    lies in the closed interval from [now + 0.5] to [now + 3]: it is at
    least [now + 0.5], a value that a draw of 0 reaches, and at most
    [now + 3].  No strictness is stated at the upper end either: the sum of
    the source is rounded, and for a draw just below 1 the rounded sum can
    be [now + 3] itself.  In part_000 the next bolt is scheduled
    [nextDelay r] milliseconds later, at least 1000 and at most 3000. *)
Theorem next_flash_within_delay (elapsedTime delta now r : Q)
    (rnd : nat -> Q) (s : LightningSystem.State) (ts : TimedLightning.State) :
  LightningSystem.flashes elapsedTime s = true ->
  unit_draw (rnd 2%nat) ->
  unit_draw r ->
  let s' := LightningSystem.useFrame true elapsedTime delta rnd s in
  (elapsedTime + (1 # 2) <= LightningSystem.nextFlashTime s'
   /\ LightningSystem.nextFlashTime s' <= elapsedTime + 3)
  /\ (In (now + TimedLightning.nextDelay r, TimedLightning.TriggerLightning)
         (TimedLightning.timers (TimedLightning.triggerLightning now r ts))
      /\ 1000 <= TimedLightning.nextDelay r
      /\ TimedLightning.nextDelay r <= 3000).
Proof.
  intros Hf [R0 R1] [r0 r1]. cbv zeta.
  destruct (Lightning_useFrame_enabled elapsedTime delta rnd s) as (_ & -> & _).
  rewrite Hf. unfold TimedLightning.nextDelay.
  repeat apply conj; try lra.
  cbn [TimedLightning.triggerLightning TimedLightning.timers].
  apply in_or_app. right. right. right. left. reflexivity.
Qed.

Lemma next_flash_within_delay_witness :
  let s' := LightningSystem.useFrame true 1 (1 # 60) (fun _ => 1 # 2)
              LightningSystem.initial in
  1 + (1 # 2) <= LightningSystem.nextFlashTime s'
  /\ LightningSystem.nextFlashTime s' <= 1 + 3.
Proof.
  cbv zeta.
  assert (Hf : LightningSystem.flashes 1 LightningSystem.initial = true)
    by reflexivity.
  assert (Hr : unit_draw ((fun _ : nat => 1 # 2) 2%nat))
    by (split; [discriminate|reflexivity]).
  assert (Hr' : unit_draw (1 # 2)) by (split; [discriminate|reflexivity]).
  exact (proj1
    (next_flash_within_delay 1 (1 # 60) 0 (1 # 2) (fun _ => 1 # 2)
       LightningSystem.initial
       (TimedLightning.mkState false false "#000000" []) Hf Hr Hr')).
Defined.

(** C9: the frame of the lightning evaluated on a long frame.  On the
    first frame of a storm, one second into the session and 0.3 s after the
    frame before, a flash is due: the intensity is set to the peak 2 and the
    decay of the same frame gives lerp(2, 0, 1.5) = -1, so the intensity is
    negative after the frame (and the point light gets -10).  The frame
    after it, of 0.1 s and without a flash, raises the intensity to -0.5. *)
Theorem flash_intensity_negative_after_long_frame :
  let s := LightningSystem.initial in
  let s1 := LightningSystem.useFrame true 1 (3 # 10) (fun _ => 1 # 2) s in
  let s2 := LightningSystem.useFrame true (11 # 10) (1 # 10) (fun _ => 1 # 2)
              s1 in
  LightningSystem.flashes 1 s = true
  /\ LightningSystem.flashIntensity s1 == -1
  /\ LightningSystem.flashIntensity s1 < 0
  /\ LightningSystem.lightIntensity s1 == -10
  /\ LightningSystem.flashes (11 # 10) s1 = false
  /\ LightningSystem.flashIntensity s2 == - (1 # 2)
  /\ LightningSystem.flashIntensity s1 < LightningSystem.flashIntensity s2.
Proof. cbv zeta. repeat apply conj; vm_compute; reflexivity. Qed.

(** * The rest of the scene code *)

(** ** Lightning bolts *)

Lemma inject_nat_succ (n : nat) :
  inject_Z (Z.of_nat (S n)) == inject_Z (Z.of_nat n) + 1.
Proof.
  rewrite Nat2Z.inj_succ. unfold Z.succ. rewrite inject_Z_plus. reflexivity.
Qed.

Lemma inject_nat_nonneg (n : nat) : 0 <= inject_Z (Z.of_nat n).
Proof.
  change 0 with (inject_Z 0). rewrite <- Zle_Qle. apply Nat2Z.is_nonneg.
Qed.

(** With draws in [0, 1) the loop of [createBoltPoints] ends within the
    fuel, and its points go down by steps of at least 10 and less than 40
    until the first one at height 10 or below. *)
Lemma zigzag_spec (fuel : nat) (rnd : nat -> Q) (n : nat) (current : Vector3) :
  (forall k, unit_draw (rnd k)) ->
  (0 < fuel)%nat ->
  v3y current <= 10 * inject_Z (Z.of_nat fuel) ->
  exists pts,
    Bolt.zigzag fuel rnd n current = Some pts
    /\ Bolt.descends (v3y current) pts
    /\ Bolt.lands (v3y current) pts.
Proof.
  intros Hrnd. revert n current.
  induction fuel as [|fuel IH]; intros n current Hpos Hy; [lia|].
  cbn [Bolt.zigzag]. case_ltb 10 (v3y current).
  - rewrite inject_nat_succ in Hy.
    assert (Hf : (0 < fuel)%nat).
    { destruct fuel; [|lia]. change (inject_Z (Z.of_nat 0)) with 0 in Hy. lra. }
    destruct (Hrnd n) as [D0 D1].
    match goal with
    | |- context [Bolt.zigzag fuel rnd ?n' ?c'] =>
        destruct (IH n' c' Hf) as (pts & -> & Hd & Hl)
    end.
    + cbn [v3y]. lra.
    + cbn [v3y option_map] in *. eexists. split; [reflexivity|].
      cbn [Bolt.descends Bolt.lands v3y]. repeat apply conj; try lra; assumption.
  - exists []. cbn. auto.
Qed.

Lemma zigzag_more_fuel (fuel more : nat) (rnd : nat -> Q) (n : nat)
    (current : Vector3) (pts : list Vector3) :
  Bolt.zigzag fuel rnd n current = Some pts ->
  Bolt.zigzag (fuel + more) rnd n current = Some pts.
Proof.
  revert n current pts.
  induction fuel as [|fuel IH]; intros n current pts; [discriminate|].
  cbn [Bolt.zigzag Nat.add]. destruct (Qltb 10 (v3y current)); [|auto].
  match goal with
  | |- context [Bolt.zigzag fuel rnd ?n' ?c'] =>
      destruct (Bolt.zigzag fuel rnd n' c') as [q|] eqn:E; [|discriminate];
      rewrite (IH n' c' q E)
  end.
  auto.
Qed.

(** How many points a descent from height [y] can have. *)
Lemma descent_length (y : Q) (pts : list Vector3) :
  Bolt.descends y pts -> Bolt.lands y pts ->
  y - 40 * inject_Z (Z.of_nat (length pts)) <= 10
  /\ (pts <> [] -> 10 * inject_Z (Z.of_nat (length pts)) < y).
Proof.
  revert y. induction pts as [|p pts IH]; intros y Hd Hl.
  - cbn [Bolt.lands length] in *. change (inject_Z (Z.of_nat 0)) with 0.
    split; [lra|congruence].
  - cbn [Bolt.descends Bolt.lands] in Hd, Hl.
    destruct Hd as (D0 & D1 & Hd), Hl as (L0 & Hl).
    destruct (IH _ Hd Hl) as [B0 B1].
    cbn [length]. rewrite inject_nat_succ. split; [lra|]. intros _.
    destruct pts as [|q pts].
    + cbn [length]. change (inject_Z (Z.of_nat 0)) with 0. lra.
    + assert (Hne : q :: pts <> []) by discriminate.
      specialize (B1 Hne). lra.
Qed.

(** X1. For draws in [0, 1) and a fuel of at least a tenth of the start
    height, [createBoltPoints] returns: the first point is the start, every
    next point is lower than the one before by at least 10 and by less than
    40, every point before the last is above height 10 and the last is at
    10 or below.  More fuel gives the same points. *)
Theorem createBoltPoints_descends (fuel : nat) (rnd : nat -> Q)
    (startPos : Vector3) :
  (forall k, unit_draw (rnd k)) ->
  (0 < fuel)%nat ->
  v3y startPos <= 10 * inject_Z (Z.of_nat fuel) ->
  exists pts,
    Bolt.createBoltPoints fuel rnd startPos = Some (startPos :: pts)
    /\ Bolt.descends (v3y startPos) pts
    /\ Bolt.lands (v3y startPos) pts
    /\ (forall more,
         Bolt.createBoltPoints (fuel + more) rnd startPos
         = Some (startPos :: pts)).
Proof.
  intros Hrnd Hpos Hy.
  destruct (zigzag_spec fuel rnd 0 startPos Hrnd Hpos Hy) as (pts & E & Hd & Hl).
  exists pts. unfold Bolt.createBoltPoints. rewrite E.
  repeat apply conj; try assumption; try reflexivity.
  intros more. rewrite (zigzag_more_fuel _ more _ _ _ _ E). reflexivity.
Qed.

Lemma createBoltPoints_descends_witness :
  exists pts,
    Bolt.createBoltPoints 4 (fun _ => 1 # 2) (mkVector3 0 40 0)
    = Some (mkVector3 0 40 0 :: pts)
    /\ Bolt.descends 40 pts.
Proof.
  assert (Hr : forall k : nat, unit_draw ((fun _ => 1 # 2) k))
    by (intros k; split; [discriminate|reflexivity]).
  assert (Hp : (0 < 4)%nat) by lia.
  assert (Hy : v3y (mkVector3 0 40 0) <= 10 * inject_Z (Z.of_nat 4))
    by discriminate.
  destruct (createBoltPoints_descends 4 (fun _ => 1 # 2) (mkVector3 0 40 0)
              Hr Hp Hy) as (pts & E & Hd & _).
  exists pts. split; assumption.
Defined.

(** X2. The bolt of a flash starts at height 300: with draws in [0, 1) it
    has at least 9 and at most 30 points, and a fuel of 30 or more is enough
    for [createBoltPoints] to return them. *)
Theorem strike_point_count (rnd : nat -> Q) (r0 r1 : Q) :
  (forall k, unit_draw (rnd k)) ->
  exists pts,
    (forall more,
       Bolt.createBoltPoints (30 + more) rnd (Bolt.strikeStart r0 r1)
       = Some pts)
    /\ (9 <= length pts)%nat /\ (length pts <= 30)%nat.
Proof.
  intros Hrnd.
  destruct (zigzag_spec 30 rnd 0 (Bolt.strikeStart r0 r1) Hrnd)
    as (pts & E & Hd & Hl); [lia|discriminate|].
  exists (Bolt.strikeStart r0 r1 :: pts). split.
  - intros more. unfold Bolt.createBoltPoints.
    rewrite (zigzag_more_fuel _ more _ _ _ _ E). reflexivity.
  - destruct (descent_length _ _ Hd Hl) as [B0 B1].
    cbn [Bolt.strikeStart v3y] in B0, B1. cbn [length].
    assert (Hne : pts <> []).
    { intros ->. cbn [length] in B0.
      change (inject_Z (Z.of_nat 0)) with 0 in B0. lra. }
    specialize (B1 Hne).
    split.
    + destruct (Z_le_gt_dec (Z.of_nat (length pts)) 7) as [H|H]; [|lia].
      rewrite Zle_Qle in H. change (inject_Z 7) with 7 in H. lra.
    + destruct (Z_le_gt_dec 30 (Z.of_nat (length pts))) as [H|H]; [|lia].
      rewrite Zle_Qle in H. change (inject_Z 30) with 30 in H. lra.
Qed.

Lemma strike_point_count_witness :
  exists pts,
    (forall more,
       Bolt.createBoltPoints (30 + more) (fun _ => 1 # 2)
         (Bolt.strikeStart (1 # 2) (1 # 2)) = Some pts)
    /\ (9 <= length pts)%nat /\ (length pts <= 30)%nat.
Proof.
  assert (Hr : forall k : nat, unit_draw ((fun _ => 1 # 2) k))
    by (intros k; split; [discriminate|reflexivity]).
  exact (strike_point_count (fun _ => 1 # 2) (1 # 2) (1 # 2) Hr).
Defined.

Lemma segments_loop_height (k : nat) (rnd : nat -> Q) (n : nat) (p : Vector3)
    (i : nat) (q : Vector3) :
  (forall j, unit_draw (rnd j)) ->
  Bolt.segments_loop k rnd n p !! i = Some q ->
  v3y p - 40 * inject_Z (Z.of_nat (S i)) < v3y q
  /\ v3y q <= v3y p - 20 * inject_Z (Z.of_nat (S i)).
Proof.
  intros Hrnd. revert n p i.
  induction k as [|k IH]; intros n p i Hq; [discriminate|].
  cbn [Bolt.segments_loop] in Hq.
  destruct (Hrnd (n + 1)%nat) as [D0 D1].
  destruct i as [|i].
  - injection Hq as <-. cbn [v3y].
    change (inject_Z (Z.of_nat 1)) with 1. lra.
  - cbn [lookup list_lookup] in Hq. apply IH in Hq. cbn [v3y] in Hq.
    rewrite (inject_nat_succ (S i)). lra.
Qed.

Lemma segments_loop_length (k : nat) (rnd : nat -> Q) (n : nat) (p : Vector3) :
  length (Bolt.segments_loop k rnd n p) = k.
Proof.
  revert n p. induction k as [|k IH]; intros n p; [reflexivity|].
  cbn [Bolt.segments_loop length]. rewrite IH. reflexivity.
Qed.

Lemma boltPoints_unfold (rnd : nat -> Q) :
  Bolt.boltPoints rnd
  = mkVector3 ((rnd 0%nat - (1 # 2)) * 600) 300
      ((rnd 1%nat - (1 # 2)) * 400 - 200)
    :: Bolt.segments_loop Bolt.segments rnd 2
         (mkVector3 ((rnd 0%nat - (1 # 2)) * 600) 300
            ((rnd 1%nat - (1 # 2)) * 400 - 200)).
Proof. reflexivity. Qed.

Lemma lookup_cons_succ {A : Type} (x : A) (l : list A) (i : nat) :
  (x :: l) !! S i = l !! i.
Proof. reflexivity. Qed.

Lemma lookup_cons_zero {A : Type} (x : A) (l : list A) :
  (x :: l) !! 0%nat = Some x.
Proof. reflexivity. Qed.

Lemma v3x_mk (x y z : Q) : v3x (mkVector3 x y z) = x.
Proof. reflexivity. Qed.

Lemma v3y_mk (x y z : Q) : v3y (mkVector3 x y z) = y.
Proof. reflexivity. Qed.

Lemma v3z_mk (x y z : Q) : v3z (mkVector3 x y z) = z.
Proof. reflexivity. Qed.

(** X3. The bolt of part_000 has 16 points.  With draws in [0, 1) it starts
    at height 300 with [x] in [-300, 300) and [z] in [-400, 0), its point
    number [i] (from 1) is below [300 - 20 * i] and above [300 - 40 * i],
    and so its last point is at height 0 or below and above -300. *)
Theorem boltPoints_heights (rnd : nat -> Q) (i : nat) (q : Vector3) :
  (forall j, unit_draw (rnd j)) ->
  Bolt.boltPoints rnd !! S i = Some q ->
  length (Bolt.boltPoints rnd) = 16%nat
  /\ (exists p, Bolt.boltPoints rnd !! 0%nat = Some p
                /\ v3y p = 300
                /\ -300 <= v3x p /\ v3x p < 300
                /\ -400 <= v3z p /\ v3z p < 0)
  /\ 300 - 40 * inject_Z (Z.of_nat (S i)) < v3y q
  /\ v3y q <= 300 - 20 * inject_Z (Z.of_nat (S i))
  /\ (i = 14%nat -> -300 < v3y q /\ v3y q <= 0).
Proof.
  intros Hrnd Hq. rewrite boltPoints_unfold in *.
  rewrite lookup_cons_succ in Hq.
  pose proof (segments_loop_height _ _ _ _ _ _ Hrnd Hq) as [H0 H1].
  rewrite v3y_mk in H0, H1.
  destruct (Hrnd 0%nat) as [A0 A1]. destruct (Hrnd 1%nat) as [B0 B1].
  split; [|split; [|split; [exact H0|split; [exact H1|]]]].
  - rewrite length_cons, segments_loop_length. reflexivity.
  - eexists. split; [apply lookup_cons_zero|].
    rewrite v3x_mk, v3y_mk, v3z_mk.
    split; [reflexivity|]. repeat apply conj; lra.
  - intros ->. change (inject_Z (Z.of_nat 15)) with 15 in H0, H1.
    split; lra.
Qed.

Lemma boltPoints_heights_witness :
  exists q, Bolt.boltPoints (fun _ => 1 # 2) !! 15%nat = Some q
            /\ -300 < v3y q /\ v3y q <= 0.
Proof.
  assert (Hr : forall k : nat, unit_draw ((fun _ => 1 # 2) k))
    by (intros k; split; [discriminate|reflexivity]).
  destruct (Bolt.boltPoints (fun _ => 1 # 2) !! 15%nat) as [q|] eqn:E.
  - exists q. split; [reflexivity|].
    exact (proj2 (proj2 (proj2 (proj2
      (boltPoints_heights (fun _ => 1 # 2) 14 q Hr E)))) eq_refl).
  - vm_compute in E. discriminate E.
Defined.

(** ** The hand tracker *)

Lemma sample_cases (landmarks : list (list HandTracker.Landmark))
    (hd : HandData) :
  HandTracker.sample landmarks = Some hd ->
  (landmarks = [] /\ hd = HandTracker.noHand)
  \/ (exists hand rest tip,
        landmarks = hand :: rest /\ hand !! 8%nat = Some tip
        /\ hd = HandTracker.tipSample tip).
Proof.
  unfold HandTracker.sample. destruct landmarks as [|hand rest].
  - intros [= <-]. left. auto.
  - destruct (hand !! 8%nat) as [tip|] eqn:E; [|discriminate].
    intros [= <-]. right. exists hand, rest, tip. auto.
Qed.

(** X4. Every sample the tracker sends, for any landmarks, has its
    direction equal to twice the offset of its position from the centre
    (0.5, 0.5), and it is marked detected exactly when a hand was found.
    When in addition the finger tip lies in the unit square, the position
    lies in the unit square and the direction in [-1, 1] on both axes. *)
Theorem sample_direction_matches_position
    (landmarks : list (list HandTracker.Landmark)) (hd : HandData) :
  HandTracker.sample landmarks = Some hd ->
  (v2x (directionVector hd) == (v2x (position hd) - (1 # 2)) * 2
   /\ v2y (directionVector hd) == (v2y (position hd) - (1 # 2)) * 2)
  /\ (isDetected hd = false <-> landmarks = [])
  /\ ((forall hand rest tip,
         landmarks = hand :: rest -> hand !! 8%nat = Some tip ->
         0 <= HandTracker.lmx tip /\ HandTracker.lmx tip <= 1
         /\ 0 <= HandTracker.lmy tip /\ HandTracker.lmy tip <= 1) ->
      (0 <= v2x (position hd) /\ v2x (position hd) <= 1
       /\ 0 <= v2y (position hd) /\ v2y (position hd) <= 1)
      /\ (-1 <= v2x (directionVector hd) /\ v2x (directionVector hd) <= 1
          /\ -1 <= v2y (directionVector hd)
          /\ v2y (directionVector hd) <= 1)).
Proof.
  intros Hs.
  destruct (sample_cases _ _ Hs) as [[-> ->]|(hand & rest & tip & -> & Ht & ->)].
  - cbn [HandTracker.noHand directionVector position isDetected v2x v2y].
    split; [split; reflexivity|]. split; [split; reflexivity|].
    intros _. repeat apply conj; discriminate.
  - cbn [HandTracker.tipSample directionVector position isDetected v2x v2y].
    split; [split; reflexivity|]. split; [split; discriminate|].
    intros Hunit.
    destruct (Hunit hand rest tip eq_refl Ht) as (X0 & X1 & Y0 & Y1).
    repeat apply conj; lra.
Qed.

Lemma sample_direction_matches_position_witness :
  let tip := HandTracker.mkLandmark (- (1 # 10)) (3 # 4) in
  let hand := replicate 21 tip in
  exists hd, HandTracker.sample [hand] = Some hd
             /\ v2x (directionVector hd) == (v2x (position hd) - (1 # 2)) * 2
             /\ v2x (directionVector hd) == 6 # 5.
Proof.
  cbv zeta.
  assert (Hs : HandTracker.sample
                 [replicate 21 (HandTracker.mkLandmark (- (1 # 10)) (3 # 4))]
               = Some (HandTracker.tipSample
                         (HandTracker.mkLandmark (- (1 # 10)) (3 # 4))))
    by reflexivity.
  eexists. split; [exact Hs|]. split; [|reflexivity].
  exact (proj1 (proj1 (sample_direction_matches_position _ _ Hs))).
Defined.

(** X5. The tracker mirrors the horizontal axis: a finger tip at [a] and
    one at [1 - a] give opposite horizontal directions and the same
    vertical one, and the sample of a tip at [a] has position [1 - a]. *)
Theorem tipSample_mirrors (a b : Q) :
  let hd := HandTracker.tipSample (HandTracker.mkLandmark a b) in
  let hd' := HandTracker.tipSample (HandTracker.mkLandmark (1 - a) b) in
  v2x (position hd) == 1 - a
  /\ v2x (directionVector hd') == - v2x (directionVector hd)
  /\ v2y (directionVector hd') == v2y (directionVector hd)
  /\ v2x (directionVector hd) == 1 - 2 * a
  /\ v2y (directionVector hd) == 2 * b - 1.
Proof.
  cbv zeta.
  cbn [HandTracker.tipSample HandTracker.lmx HandTracker.lmy
       directionVector position v2x v2y].
  repeat apply conj; ring.
Qed.

(** X6. A run of [predictWebcam] on a video frame whose time has not
    changed sends nothing, whatever the detector would return; so after a
    run at frame time [t] any further run at the same time leaves the hand
    data as it is. *)
Theorem predictWebcam_once_per_frame (t : Q)
    (landmarks landmarks' : list (list HandTracker.Landmark))
    (s s' : HandTracker.State) :
  HandTracker.predictWebcam t landmarks s = Some s' ->
  HandTracker.predictWebcam t landmarks' s' = Some s'
  /\ (t == HandTracker.lastVideoTime s -> s' = s).
Proof.
  unfold HandTracker.predictWebcam.
  destruct (Qeq_bool t (HandTracker.lastVideoTime s)) eqn:E.
  - intros [= <-]. rewrite E. auto.
  - destruct (HandTracker.sample landmarks) as [hd|]; [|discriminate].
    intros [= <-]. cbn [HandTracker.lastVideoTime].
    rewrite (proj2 (Qeq_bool_iff t t) (Qeq_refl t)). split; [reflexivity|].
    intros H. apply Qeq_bool_iff in H. congruence.
Qed.

Lemma predictWebcam_once_per_frame_witness :
  let s' := HandTracker.mkState 0
              (HandTracker.tipSample (HandTracker.mkLandmark (1 # 4) (3 # 4))) in
  HandTracker.predictWebcam 0 [] s' = Some s'.
Proof.
  cbv zeta.
  assert (H : HandTracker.predictWebcam 0
                [replicate 21 (HandTracker.mkLandmark (1 # 4) (3 # 4))]
                HandTracker.initial
              = Some (HandTracker.mkState 0
                        (HandTracker.tipSample
                           (HandTracker.mkLandmark (1 # 4) (3 # 4)))))
    by reflexivity.
  exact (proj1 (predictWebcam_once_per_frame 0 _ [] _ _ H)).
Defined.

Lemma Qltb_abs (c x : Q) :
  Qltb c (Math_abs x) = true <-> x < - c \/ c < x.
Proof.
  rewrite Qltb_true. unfold Math_abs.
  destruct (Qlt_le_dec x 0) as [H|H].
  - rewrite (Qabs_neg x) by lra. split; [intros; left; lra|intros []; lra].
  - rewrite (Qabs_pos x) by lra. split; [intros; right; lra|intros []; lra].
Qed.

(** X7. The deadzones in image coordinates.  [SceneController] takes a
    tracked finger tip for movement exactly when it is farther than 0.075
    from the image centre (in Euclidean distance, compared on the squares);
    [SceneContent] exactly when it is more than 0.1 from the centre along
    one of the axes.  The sample sent without a hand is movement for
    neither. *)
Theorem deadzone_in_image_coordinates (tip : HandTracker.Landmark) :
  let dx := HandTracker.lmx tip - (1 # 2) in
  let dy := HandTracker.lmy tip - (1 # 2) in
  (SceneController.isMoving (HandTracker.tipSample tip) = true
   <-> (3 # 40) * (3 # 40) < dx * dx + dy * dy)
  /\ (SceneContent.isMoving (HandTracker.tipSample tip) = true
      <-> (dx < - (1 # 10) \/ 1 # 10 < dx \/ dy < - (1 # 10) \/ 1 # 10 < dy))
  /\ SceneController.isMoving HandTracker.noHand = false
  /\ SceneContent.isMoving HandTracker.noHand = false.
Proof.
  cbv zeta. split; [|split; [|split; reflexivity]].
  - unfold SceneController.isMoving, SceneController.beyond_deadzone,
      SceneController.deadzone.
    cbn [HandTracker.tipSample isDetected directionVector v2x v2y andb].
    rewrite Qltb_true.
    set (a := HandTracker.lmx tip). set (b := HandTracker.lmy tip).
    assert (E : (1 - a - (1 # 2)) * 2 * ((1 - a - (1 # 2)) * 2)
                + (b - (1 # 2)) * 2 * ((b - (1 # 2)) * 2)
                == 4 * ((a - (1 # 2)) * (a - (1 # 2))
                        + (b - (1 # 2)) * (b - (1 # 2)))) by ring.
    rewrite E. clear E.
    generalize ((a - (1 # 2)) * (a - (1 # 2)) + (b - (1 # 2)) * (b - (1 # 2))).
    clear a b. intros q. split; intros H; lra.
  - unfold SceneContent.isMoving.
    cbn [HandTracker.tipSample directionVector v2x v2y].
    rewrite orb_true_iff, !Qltb_abs. split; intros H.
    + destruct H as [[H|H]|[H|H]]; [right; left|left|right; right; left
                                    |right; right; right]; lra.
    + destruct H as [H|[H|[H|H]]]; [left; right|left; left|right; left
                                    |right; right]; lra.
Qed.

(** ** The water and the two controllers over several frames *)

Lemma total_nonneg (deltas : list Q) :
  Forall (fun d => 0 <= d) deltas -> 0 <= Runs.total deltas.
Proof.
  induction 1 as [|d ds Hd _ IH]; cbn [Runs.total fold_right]; [lra|].
  change (fold_right Qplus 0 ds) with (Runs.total ds). lra.
Qed.

Lemma total_cons (d : Q) (ds : list Q) :
  Runs.total (d :: ds) = d + Runs.total ds.
Proof. reflexivity. Qed.

Lemma kept_cons (d : Q) (ds : list Q) :
  Runs.kept (d :: ds) = (1 - d) * Runs.kept ds.
Proof. reflexivity. Qed.

Lemma ocean_cons (gameState : GameState) (d : Q) (ds : list Q)
    (u : OceanMesh.Uniforms) :
  Runs.ocean gameState (d :: ds) u
  = Runs.ocean gameState ds (OceanMesh.useFrame gameState d u).
Proof. reflexivity. Qed.

(** X8. The water never leaves the range of its two targets: with the
    distortion scale between 3.7 and 8, a frame of [OceanMesh] with
    [0 <= delta <= 1] (OceanEnvironment.tsx) or [0 <= delta <= 2]
    (part_000) leaves it between 3.7 and 8, in either game state. *)
Theorem distortion_stays_between_targets (gameState : GameState) (delta : Q)
    (u : OceanMesh.Uniforms) :
  0 <= delta -> delta <= 2 ->
  37 # 10 <= OceanMesh.distortionScale u ->
  OceanMesh.distortionScale u <= 8 ->
  (37 # 10 <= OceanMesh.distortionScale (OceanMesh.useFrame_alt gameState delta u)
   /\ OceanMesh.distortionScale (OceanMesh.useFrame_alt gameState delta u) <= 8)
  /\ (delta <= 1 ->
      37 # 10 <= OceanMesh.distortionScale (OceanMesh.useFrame gameState delta u)
      /\ OceanMesh.distortionScale (OceanMesh.useFrame gameState delta u) <= 8).
Proof.
  intros D0 D2 L U.
  unfold OceanMesh.useFrame, OceanMesh.useFrame_alt, MathUtils.lerp.
  cbn [OceanMesh.distortionScale].
  generalize dependent (OceanMesh.distortionScale u). intros d L U.
  assert (T : 37 # 10 <= OceanMesh.targetDistortion gameState
              /\ OceanMesh.targetDistortion gameState <= 8)
    by (destruct gameState; split; discriminate).
  destruct T as [T0 T1].
  generalize dependent (OceanMesh.targetDistortion gameState). intros t T0 T1.
  repeat apply conj; intros; nra.
Qed.

Lemma distortion_stays_between_targets_witness :
  37 # 10 <= OceanMesh.distortionScale
               (OceanMesh.useFrame STORM (1 # 60)
                  (OceanMesh.mkUniforms 0 (37 # 10)))
  /\ OceanMesh.distortionScale
       (OceanMesh.useFrame STORM (1 # 60) (OceanMesh.mkUniforms 0 (37 # 10)))
     <= 8.
Proof.
  assert (D0 : 0 <= 1 # 60) by discriminate.
  assert (D2 : 1 # 60 <= 2) by discriminate.
  assert (L : 37 # 10 <= 37 # 10) by discriminate.
  assert (U : 37 # 10 <= 8) by discriminate.
  assert (D1 : 1 # 60 <= 1) by discriminate.
  exact (proj2
    (distortion_stays_between_targets STORM (1 # 60)
       (OceanMesh.mkUniforms 0 (37 # 10)) D0 D2 L U) D1).
Defined.

(** X9. Over frames of lengths [deltas] under one game state, the [time]
    uniform of the water advances by half the total elapsed time, and the
    distance of the distortion scale to its target is the initial distance
    times the product of the [1 - delta]. *)
Theorem ocean_after_frames (gameState : GameState) (deltas : list Q)
    (u : OceanMesh.Uniforms) :
  OceanMesh.time (Runs.ocean gameState deltas u)
  == OceanMesh.time u + Runs.total deltas * (1 # 2)
  /\ OceanMesh.targetDistortion gameState
     - OceanMesh.distortionScale (Runs.ocean gameState deltas u)
     == (OceanMesh.targetDistortion gameState - OceanMesh.distortionScale u)
        * Runs.kept deltas.
Proof.
  revert u. induction deltas as [|d ds IH]; intros u.
  - cbn. split; ring.
  - rewrite ocean_cons, total_cons, kept_cons.
    destruct (IH (OceanMesh.useFrame gameState d u)) as [-> ->].
    unfold OceanMesh.useFrame, MathUtils.lerp.
    cbn [OceanMesh.time OceanMesh.distortionScale]. split; ring.
Qed.

Lemma SceneController_frames_cons {A : Type} (f : A -> A)
    (handData : HandData) (d : Q) (ds : list Q)
    (s : SceneController.State) (a : A) :
  SceneController.frames f handData (d :: ds) s a
  = SceneController.frames f handData ds
      (fst (SceneController.useFrame f handData d s a))
      (snd (SceneController.useFrame f handData d s a)).
Proof.
  unfold SceneController.frames. cbn [fold_left fst snd].
  destruct (SceneController.useFrame f handData d s a); reflexivity.
Qed.

(** X10. The controller of OceanEnvironment.tsx keeps the camera speed
    below [SPEED]: for a direction in [-1, 1] on both axes and a velocity
    within 15 on both axes, the velocity after a frame is within 15 on both
    axes, its vertical part is unchanged, the camera is at height 10, and
    for [delta >= 0] the camera has moved by at most [15 * delta] along
    each axis. *)
Theorem camera_speed_bounded {A : Type} (f : A -> A) (a : A)
    (handData : HandData) (delta : Q) (s : SceneController.State) :
  -1 <= v2x (directionVector handData) <= 1 ->
  -1 <= v2y (directionVector handData) <= 1 ->
  -15 <= v3x (SceneController.velocity s) <= 15 ->
  -15 <= v3z (SceneController.velocity s) <= 15 ->
  0 <= delta ->
  let s' := fst (SceneController.useFrame f handData delta s a) in
  (-15 <= v3x (SceneController.velocity s') <= 15
   /\ -15 <= v3z (SceneController.velocity s') <= 15
   /\ v3y (SceneController.velocity s') = v3y (SceneController.velocity s))
  /\ v3y (SceneController.camera s') = 10
  /\ (- (15 * delta)
      <= v3x (SceneController.camera s') - v3x (SceneController.camera s)
      <= 15 * delta)
  /\ (- (15 * delta)
      <= v3z (SceneController.camera s') - v3z (SceneController.camera s)
      <= 15 * delta).
Proof.
  intros Dx Dy Vx Vz Hd. cbv zeta.
  destruct (SceneController_camera f handData delta s a) as [-> ->].
  cbn [v3x v3y v3z].
  assert (T : -15 <= v3x (SceneController.targetVelocity handData) <= 15
              /\ -15 <= v3z (SceneController.targetVelocity handData) <= 15).
  { unfold SceneController.targetVelocity, SceneController.SPEED.
    destruct (SceneController.isMoving handData); cbn [v3x v3z]; lra. }
  destruct T as [Tx Tz].
  generalize dependent (v3x (SceneController.targetVelocity handData)).
  generalize dependent (v3z (SceneController.targetVelocity handData)).
  intros tz Tz tx Tx.
  generalize dependent (v3x (SceneController.velocity s)).
  generalize dependent (v3z (SceneController.velocity s)).
  intros vz Vz vx Vx.
  repeat apply conj; try reflexivity; try lra; nra.
Qed.

Lemma camera_speed_bounded_witness :
  let hand := mkHandData true (mkVector2 1 (1 # 2)) (mkVector2 1 0) in
  let s' := fst (SceneController.useFrame (fun a : unit => a) hand (1 # 60)
                   SceneController.initial tt) in
  - (15 * (1 # 60))
  <= v3x (SceneController.camera s')
     - v3x (SceneController.camera SceneController.initial)
  <= 15 * (1 # 60).
Proof.
  cbv zeta.
  assert (Dx : -1 <= 1 <= 1) by (split; discriminate).
  assert (Dy : -1 <= 0 <= 1) by (split; discriminate).
  assert (V : -15 <= 0 <= 15) by (split; discriminate).
  assert (Hd : 0 <= 1 # 60) by discriminate.
  exact (proj1 (proj2 (proj2
    (camera_speed_bounded (fun a : unit => a) tt
       (mkHandData true (mkVector2 1 (1 # 2)) (mkVector2 1 0)) (1 # 60)
       SceneController.initial Dx Dy V V Hd)))).
Defined.

Lemma SceneController_still_target (handData : HandData) :
  SceneController.isMoving handData = false ->
  SceneController.targetVelocity handData = mkVector3 0 0 0.
Proof. unfold SceneController.targetVelocity. intros ->. reflexivity. Qed.

(** X11. Without movement the camera of OceanEnvironment.tsx coasts: each
    frame keeps 0.95 of the velocity, whatever its length, so after [n]
    frames the horizontal velocity is the initial one times 0.95 to the
    power [n]. *)
Theorem velocity_coasts {A : Type} (f : A -> A) (a : A)
    (handData : HandData) (deltas : list Q) (s : SceneController.State) :
  SceneController.isMoving handData = false ->
  let s' := fst (SceneController.frames f handData deltas s a) in
  v3x (SceneController.velocity s')
  == v3x (SceneController.velocity s) * Runs.coast (length deltas)
  /\ v3z (SceneController.velocity s')
     == v3z (SceneController.velocity s) * Runs.coast (length deltas).
Proof.
  intros Hm. cbv zeta. revert s a.
  induction deltas as [|d ds IH]; intros s a.
  - cbn. split; ring.
  - rewrite SceneController_frames_cons.
    destruct (IH (fst (SceneController.useFrame f handData d s a))
                 (snd (SceneController.useFrame f handData d s a))) as [-> ->].
    destruct (SceneController_camera f handData d s a) as [_ ->].
    rewrite (SceneController_still_target _ Hm).
    cbn [v3x v3z length Runs.coast]. split; ring.
Qed.

Lemma velocity_coasts_witness :
  let hand := HandTracker.noHand in
  let s := SceneController.mkState 0 (mkVector3 15 0 0) (mkVector3 0 10 100) in
  v3x (SceneController.velocity
         (fst (SceneController.frames (fun a : unit => a) hand
                 [1 # 60; 1 # 30] s tt)))
  == 15 * Runs.coast 2.
Proof.
  cbv zeta.
  assert (Hm : SceneController.isMoving HandTracker.noHand = false)
    by reflexivity.
  exact (proj1
    (velocity_coasts (fun a : unit => a) tt HandTracker.noHand
       [1 # 60; 1 # 30]
       (SceneController.mkState 0 (mkVector3 15 0 0) (mkVector3 0 10 100))
       Hm)).
Defined.

(** X12. While the hand moves and the accumulated time does not pass the
    threshold, the accumulator of OceanEnvironment.tsx measures the elapsed
    time exactly: over frames with [delta >= 0] whose sum added to the
    accumulator is at most 10, it grows by that sum and the trigger is not
    called. *)
Theorem accumulator_measures_movement {A : Type} (f : A -> A) (a : A)
    (handData : HandData) (deltas : list Q) (s : SceneController.State) :
  SceneController.isMoving handData = true ->
  Forall (fun d => 0 <= d) deltas ->
  SceneController.moveDuration s + Runs.total deltas <= 10 ->
  let r := SceneController.frames f handData deltas s a in
  SceneController.moveDuration (fst r)
  == SceneController.moveDuration s + Runs.total deltas
  /\ snd r = a.
Proof.
  intros Hm Hds. cbv zeta. revert s a.
  induction Hds as [|d ds Hd Hds IH]; intros s a Hsum.
  - cbn. split; [ring|reflexivity].
  - rewrite total_cons in Hsum. pose proof (total_nonneg ds Hds) as Ht.
    rewrite SceneController_frames_cons, total_cons.
    assert (E : Qltb 10 (SceneController.moveDuration s + d) = false)
      by (apply Qltb_false; lra).
    assert (M : SceneController.moveDuration
                  (fst (SceneController.useFrame f handData d s a))
                = SceneController.moveDuration s + d)
      by (rewrite SceneController_moveDuration, Hm, E; reflexivity).
    assert (C : snd (SceneController.useFrame f handData d s a) = a)
      by (rewrite SceneController_calls, Hm, E; reflexivity).
    rewrite C.
    destruct (IH (fst (SceneController.useFrame f handData d s a)) a)
      as [-> ->]; [rewrite M; lra|].
    rewrite M. split; [ring|reflexivity].
Qed.

Lemma accumulator_measures_movement_witness :
  let hand := mkHandData true (mkVector2 (19 # 20) (1 # 2))
                (mkVector2 (9 # 10) 0) in
  SceneController.moveDuration
    (fst (SceneController.frames S hand [1 # 60; 1 # 30]
            SceneController.initial 0%nat))
  == 0 + Runs.total [1 # 60; 1 # 30].
Proof.
  cbv zeta.
  assert (Hm : SceneController.isMoving
                 (mkHandData true (mkVector2 (19 # 20) (1 # 2))
                    (mkVector2 (9 # 10) 0)) = true) by reflexivity.
  assert (Hds : Forall (fun d => 0 <= d) [1 # 60; 1 # 30])
    by (repeat constructor; discriminate).
  assert (Hs : SceneController.moveDuration SceneController.initial
               + Runs.total [1 # 60; 1 # 30] <= 10) by discriminate.
  exact (proj1
    (accumulator_measures_movement S 0%nat _ _ SceneController.initial
       Hm Hds Hs)).
Defined.

(** X13. Without movement the accumulator of OceanEnvironment.tsx runs
    down at twice the speed of time and stops at 0: over frames with
    [delta >= 0] it ends at [max(0, acc - 2 * sum)], and the trigger is not
    called. *)
Theorem accumulator_runs_down {A : Type} (f : A -> A) (a : A)
    (handData : HandData) (deltas : list Q) (s : SceneController.State) :
  SceneController.isMoving handData = false ->
  Forall (fun d => 0 <= d) deltas ->
  0 <= SceneController.moveDuration s ->
  let r := SceneController.frames f handData deltas s a in
  SceneController.moveDuration (fst r)
  == Math_max 0 (SceneController.moveDuration s - 2 * Runs.total deltas)
  /\ snd r = a.
Proof.
  intros Hm Hds. cbv zeta. revert s a.
  induction Hds as [|d ds Hd Hds IH]; intros s a H0.
  - cbn [SceneController.frames fold_left fst snd Runs.total fold_right].
    split; [|reflexivity].
    destruct (Math_max_cases 0 (SceneController.moveDuration s - 2 * 0))
      as [[? ->]|[? ->]]; lra.
  - pose proof (total_nonneg ds Hds) as Ht.
    rewrite SceneController_frames_cons, total_cons.
    assert (M : SceneController.moveDuration
                  (fst (SceneController.useFrame f handData d s a))
                = Math_max 0 (SceneController.moveDuration s - d * 2))
      by (rewrite SceneController_moveDuration, Hm; reflexivity).
    assert (C : snd (SceneController.useFrame f handData d s a) = a)
      by (rewrite SceneController_calls, Hm; reflexivity).
    rewrite C.
    destruct (IH (fst (SceneController.useFrame f handData d s a)) a)
      as [-> ->].
    + rewrite M.
      destruct (Math_max_cases 0 (SceneController.moveDuration s - d * 2))
        as [[? ->]|[? ->]]; lra.
    + rewrite M. split; [|reflexivity].
      destruct (Math_max_cases 0 (SceneController.moveDuration s - d * 2))
        as [[? ->]|[? ->]];
        match goal with
        | |- Math_max 0 ?x == Math_max 0 ?y =>
            destruct (Math_max_cases 0 x) as [[? ->]|[? ->]];
            destruct (Math_max_cases 0 y) as [[? ->]|[? ->]]
        end; lra.
Qed.

Lemma accumulator_runs_down_witness :
  let s := SceneController.mkState 5 (mkVector3 0 0 0) (mkVector3 0 10 100) in
  SceneController.moveDuration
    (fst (SceneController.frames S HandTracker.noHand [1; 1; 1] s 0%nat))
  == Math_max 0 (5 - 2 * Runs.total [1; 1; 1]).
Proof.
  cbv zeta.
  assert (Hm : SceneController.isMoving HandTracker.noHand = false)
    by reflexivity.
  assert (Hds : Forall (fun d => 0 <= d) [1; 1; 1])
    by (repeat constructor; discriminate).
  assert (H0 : 0 <= 5) by discriminate.
  exact (proj1
    (accumulator_runs_down S 0%nat HandTracker.noHand [1; 1; 1]
       (SceneController.mkState 5 (mkVector3 0 0 0) (mkVector3 0 10 100))
       Hm Hds H0)).
Defined.

(** X14. The pan of part_000 does not overshoot: for a direction in
    [-1, 1] on both axes and [0 <= delta <= 2], the camera ends a frame
    between where it was and its pan target on each axis; so a camera with
    [x] in [-10, 10] and [y] in [5, 15] stays there, and its [z] never
    changes.  The point it looks at has [x] in [-20, 20], [y] in [0, 20]
    and [z = -50]. *)
Theorem pan_stays_in_range {A : Type} (f : A -> A) (a : A)
    (handData : HandData) (gameState : GameState) (delta : Q)
    (c : SceneContent.State) :
  -1 <= v2x (directionVector handData) <= 1 ->
  -1 <= v2y (directionVector handData) <= 1 ->
  0 <= delta -> delta <= 2 ->
  let c' := fst (SceneContent.useFrame f handData gameState delta c a) in
  let p := SceneContent.cameraPosition c in
  let p' := SceneContent.cameraPosition c' in
  ((v3x p <= SceneContent.panTargetX handData ->
    v3x p <= v3x p' <= SceneContent.panTargetX handData)
   /\ (SceneContent.panTargetX handData <= v3x p ->
       SceneContent.panTargetX handData <= v3x p' <= v3x p)
   /\ (v3y p <= SceneContent.panTargetY handData ->
       v3y p <= v3y p' <= SceneContent.panTargetY handData)
   /\ (SceneContent.panTargetY handData <= v3y p ->
       SceneContent.panTargetY handData <= v3y p' <= v3y p))
  /\ (-10 <= v3x p <= 10 -> -10 <= v3x p' <= 10)
  /\ (5 <= v3y p <= 15 -> 5 <= v3y p' <= 15)
  /\ v3z p' = v3z p
  /\ (-20 <= v3x (SceneContent.lookAt c') <= 20
      /\ 0 <= v3y (SceneContent.lookAt c') <= 20
      /\ v3z (SceneContent.lookAt c') = -50).
Proof.
  intros Dx Dy D0 D2. cbv zeta.
  rewrite SceneContent_camera. cbn [v3x v3y v3z].
  assert (L : -20 <= v3x (SceneContent.lookAt
                      (fst (SceneContent.useFrame f handData gameState delta c a)))
              <= 20
              /\ 0 <= v3y (SceneContent.lookAt
                      (fst (SceneContent.useFrame f handData gameState delta c a)))
                 <= 20
              /\ v3z (SceneContent.lookAt
                      (fst (SceneContent.useFrame f handData gameState delta c a)))
                 = -50).
  { unfold SceneContent.useFrame.
    destruct (isDetected handData);
      [destruct (Qltb 10 _ && _)|];
      cbn [fst SceneContent.lookAt v3x v3y v3z];
      repeat apply conj; try reflexivity; lra. }
  unfold SceneContent.panTargetX, SceneContent.panTargetY, SceneContent.speed.
  generalize dependent (v3x (SceneContent.cameraPosition c)).
  generalize dependent (v3y (SceneContent.cameraPosition c)).
  generalize dependent (v2x (directionVector handData)).
  generalize dependent (v2y (directionVector handData)).
  intros dy Dy dx Dx y x.
  split; [|split; [|split; [|split; [reflexivity|exact L]]]].
  - repeat apply conj; intros; split; nra.
  - intros; split; nra.
  - intros; split; nra.
Qed.

Lemma pan_stays_in_range_witness :
  let hand := mkHandData true (mkVector2 1 (1 # 2)) (mkVector2 1 0) in
  let c' := fst (SceneContent.useFrame (fun a : unit => a) hand NORMAL
                   (1 # 60) SceneContent.initial tt) in
  -10 <= v3x (SceneContent.cameraPosition c') <= 10.
Proof.
  cbv zeta.
  assert (Dx : -1 <= 1 <= 1) by (split; discriminate).
  assert (Dy : -1 <= 0 <= 1) by (split; discriminate).
  assert (D0 : 0 <= 1 # 60) by discriminate.
  assert (D2 : 1 # 60 <= 2) by discriminate.
  assert (X : -10 <= v3x (SceneContent.cameraPosition SceneContent.initial)
              <= 10) by (split; discriminate).
  exact (proj1 (proj2
    (pan_stays_in_range (fun a : unit => a) tt
       (mkHandData true (mkVector2 1 (1 # 2)) (mkVector2 1 0)) NORMAL (1 # 60)
       SceneContent.initial Dx Dy D0 D2)) X).
Defined.

(** ** The life of a storm in App *)

Lemma advance_single_not_due (t due : Q) (k : App.Timer) (g : GameState)
    (m : string) :
  t < due ->
  App.advance t (App.mkState g m [(due, k)]) = App.mkState g m [(due, k)].
Proof.
  intros H. unfold App.advance.
  destruct (App.weight (App.timers (App.mkState g m [(due, k)]))) as [|n];
    [reflexivity|].
  cbn [App.run_due App.timers App.pick].
  rewrite (proj2 (Qltb_true t due) H). reflexivity.
Qed.

Lemma advance_no_timers (t : Q) (g : GameState) (m : string) :
  App.advance t (App.mkState g m []) = App.mkState g m [].
Proof. reflexivity. Qed.

(** During a storm that was entered with no timer pending, nothing that
    happens before the storm timer is due changes the application. *)
Lemma storm_undisturbed (t0 : Q) (s : App.State) (es : list App.Event) :
  App.gameState s = NORMAL -> App.timers s = [] ->
  Forall (fun e => App.event_time e < t0 + 10000) es ->
  App.run es (App.triggerStorm t0 s)
  = App.mkState STORM "A STORM IS PASSING THROUGH..."
      [(t0 + App.stormDuration, App.EndStorm)].
Proof.
  intros G T Hes.
  assert (E : App.triggerStorm t0 s
              = App.mkState STORM "A STORM IS PASSING THROUGH..."
                  [(t0 + App.stormDuration, App.EndStorm)]).
  { unfold App.triggerStorm. rewrite G, T. reflexivity. }
  rewrite E. clear E.
  induction Hes as [|e es He _ IH]; [reflexivity|].
  cbn [App.run fold_left].
  assert (Hstep : App.step
                    (App.mkState STORM "A STORM IS PASSING THROUGH..."
                       [(t0 + App.stormDuration, App.EndStorm)]) e
                  = App.mkState STORM "A STORM IS PASSING THROUGH..."
                      [(t0 + App.stormDuration, App.EndStorm)]).
  { destruct e as [t|t]; cbn [App.step App.event_time] in *;
      rewrite advance_single_not_due by exact He; reflexivity. }
  rewrite Hstep. exact IH.
Qed.

Lemma advance_storm_end (t0 t : Q) (m : string) :
  t0 + 10000 <= t ->
  App.advance t (App.mkState STORM m [(t0 + App.stormDuration, App.EndStorm)])
  = if Qltb t (t0 + App.stormDuration + 4000)
    then App.mkState NORMAL "The sky clears. Peace returns."
           [(t0 + App.stormDuration + 4000, App.RestoreMsg)]
    else App.mkState NORMAL App.defaultMsg [].
Proof.
  intros H. unfold App.advance. cbn [App.timers].
  change (App.weight [(t0 + App.stormDuration, App.EndStorm)]) with 2%nat.
  cbn [App.run_due App.timers App.pick].
  assert (E : Qltb t (t0 + App.stormDuration) = false)
    by (apply Qltb_false; unfold App.stormDuration; lra).
  rewrite E.
  cbn [App.fire App.timers App.gameState App.msg app App.pick fst].
  destruct (Qltb t (t0 + App.stormDuration + 4000)); reflexivity.
Qed.

(** X15. The life of a storm entered at time [t0] (milliseconds) from a
    calm application with no timer pending.  Until [t0 + 10000], whatever
    happens (further triggers included), the message is the storm message;
    from [t0 + 10000] and before [t0 + 14000] the state is NORMAL with the
    clearing message; from [t0 + 14000] on the application is back in its
    initial state: NORMAL, the default message, no timer pending. *)
Theorem storm_life_cycle (s : App.State) (t0 t : Q) (es : list App.Event) :
  App.gameState s = NORMAL ->
  App.timers s = [] ->
  Forall (fun e => App.event_time e < t0 + 10000) es ->
  t0 + 10000 <= t ->
  let storm := App.run es (App.triggerStorm t0 s) in
  App.msg storm = "A STORM IS PASSING THROUGH..."%string
  /\ (t < t0 + 14000 ->
      App.gameState (App.advance t storm) = NORMAL
      /\ App.msg (App.advance t storm) = "The sky clears. Peace returns."%string)
  /\ (t0 + 14000 <= t -> App.advance t storm = App.initial).
Proof.
  intros G T Hes Ht. cbv zeta.
  rewrite (storm_undisturbed t0 s es G T Hes).
  rewrite (advance_storm_end t0 t _ Ht).
  split; [reflexivity|]. unfold App.stormDuration.
  case_ltb t (t0 + 10000 + 4000); split; intros; try lra; auto.
Qed.

Lemma storm_life_cycle_witness :
  App.advance 14000
    (App.run [App.Trigger 5000; App.Elapse 9990]
       (App.triggerStorm 0 App.initial))
  = App.initial.
Proof.
  assert (G : App.gameState App.initial = NORMAL) by reflexivity.
  assert (T : App.timers App.initial = []) by reflexivity.
  assert (Hes : Forall (fun e => App.event_time e < 0 + 10000)
                  [App.Trigger 5000; App.Elapse 9990])
    by (repeat constructor).
  assert (Ht : 0 + 10000 <= 14000) by discriminate.
  assert (Ht' : 0 + 14000 <= 14000) by discriminate.
  exact (proj2 (proj2
    (storm_life_cycle App.initial 0 14000
       [App.Trigger 5000; App.Elapse 9990] G T Hes Ht)) Ht').
Defined.

(** X16. The timer that restores the default message does not look at the
    game state.  When a storm is entered at [t0] while the restore timer of
    the storm before is still pending, due at [T] before the new storm
    ends, then from [T] until the end of the new storm the application is
    in STORM and shows the default message instead of the storm message. *)
Theorem restore_message_overwrites_storm (t0 T t : Q) (m : string) :
  t0 < T -> T <= t -> t < t0 + 10000 ->
  let calm := App.mkState NORMAL m [(T, App.RestoreMsg)] in
  let s := App.advance t (App.triggerStorm t0 calm) in
  App.msg (App.triggerStorm t0 calm) = "A STORM IS PASSING THROUGH..."%string
  /\ App.gameState s = STORM
  /\ App.msg s = App.defaultMsg.
Proof.
  intros H0 H1 H2. cbv zeta. split; [reflexivity|].
  unfold App.triggerStorm, App.advance.
  cbn [App.gameState GameState_eqb App.timers app].
  change (App.weight [(T, App.RestoreMsg); (t0 + App.stormDuration, App.EndStorm)])
    with 3%nat.
  cbn [App.run_due App.timers App.pick fst].
  assert (E1 : Qltb (t0 + App.stormDuration) T = false)
    by (apply Qltb_false; unfold App.stormDuration; lra).
  rewrite E1.
  assert (E2 : Qltb t T = false) by (apply Qltb_false; lra).
  rewrite E2.
  cbn [App.fire App.gameState App.msg App.timers App.pick fst].
  assert (E3 : Qltb t (t0 + App.stormDuration) = true)
    by (apply Qltb_true; unfold App.stormDuration; lra).
  rewrite E3. split; reflexivity.
Qed.

Lemma restore_message_overwrites_storm_witness :
  let s := App.run [App.Elapse 10000; App.Trigger 11000; App.Elapse 14000]
             (App.triggerStorm 0 App.initial) in
  App.gameState s = STORM /\ App.msg s = App.defaultMsg.
Proof.
  cbv zeta.
  assert (E : App.run [App.Elapse 10000; App.Trigger 11000; App.Elapse 14000]
                (App.triggerStorm 0 App.initial)
              = App.advance 14000
                  (App.triggerStorm 11000
                     (App.mkState NORMAL "The sky clears. Peace returns."
                        [(14000, App.RestoreMsg)])))
    by (vm_compute; reflexivity).
  rewrite E.
  assert (H0 : 11000 < 14000) by reflexivity.
  assert (H1 : 14000 <= 14000) by discriminate.
  assert (H2 : 14000 < 11000 + 10000) by reflexivity.
  exact (proj2
    (restore_message_overwrites_storm 11000 14000 14000
       "The sky clears. Peace returns." H0 H1 H2)).
Defined.

(** An invariant of the callbacks of the timers is kept by the clock. *)
Lemma run_due_invariant (P : App.State -> Prop) :
  (forall s due act rest,
     P s -> App.pick (App.timers s) = Some ((due, act), rest) ->
     P (App.fire act due (App.mkState (App.gameState s) (App.msg s) rest))) ->
  forall fuel t s, P s -> P (App.run_due fuel t s).
Proof.
  intros Hfire fuel t. induction fuel as [|fuel IH]; intros s Hs; [exact Hs|].
  cbn [App.run_due].
  destruct (App.pick (App.timers s)) as [[[due act] rest]|] eqn:E;
    [|exact Hs].
  destruct (Qltb t due); [exact Hs|].
  apply IH. eapply Hfire; eassumption.
Qed.

(** X17. Whatever sequence of triggers and elapsed times the application
    goes through from its initial state: during a storm exactly one
    storm-end timer is pending and the message is the storm message or the
    default message; outside a storm no storm-end timer is pending and the
    message is the clearing message or the default message. *)
Theorem reachable_states_consistent (es : list App.Event) :
  let s := App.run es App.initial in
  match App.gameState s with
  | STORM =>
      App.pending_ends (App.timers s) = 1%nat
      /\ (App.msg s = "A STORM IS PASSING THROUGH..."%string
          \/ App.msg s = App.defaultMsg)
  | NORMAL =>
      App.pending_ends (App.timers s) = 0%nat
      /\ (App.msg s = "The sky clears. Peace returns."%string
          \/ App.msg s = App.defaultMsg)
  end.
Proof.
  cbv zeta.
  set (P := fun s : App.State =>
              match App.gameState s with
              | STORM =>
                  App.pending_ends (App.timers s) = 1%nat
                  /\ (App.msg s = "A STORM IS PASSING THROUGH..."%string
                      \/ App.msg s = App.defaultMsg)
              | NORMAL =>
                  App.pending_ends (App.timers s) = 0%nat
                  /\ (App.msg s = "The sky clears. Peace returns."%string
                      \/ App.msg s = App.defaultMsg)
              end).
  change (P (App.run es App.initial)).
  assert (H : P App.initial) by (split; [reflexivity|right; reflexivity]).
  revert H. generalize App.initial.
  assert (Hadv : forall t s, P s -> P (App.advance t s)).
  { intros t s. unfold App.advance. apply run_due_invariant.
    clear. intros s due act rest Hs E.
    pose proof (pending_ends_pick _ _ _ _ E) as HP.
    unfold P in *. destruct act; cbn [App.fire App.gameState App.msg App.timers].
    - rewrite pending_ends_app, pending_ends_cons.
      change (App.pending_ends []) with 0%nat.
      destruct (App.gameState s); destruct Hs as [Hs _];
        (split; [lia|left; reflexivity]).
    - destruct (App.gameState s); destruct Hs as [Hs _];
        (split; [lia|right; reflexivity]). }
  induction es as [|e es IH]; intros s Hs; [exact Hs|].
  cbn [App.run fold_left]. apply IH.
  destruct e as [t|t]; cbn [App.step]; [apply Hadv, Hs|].
  specialize (Hadv t s Hs). unfold App.triggerStorm, P in *.
  destruct (App.gameState (App.advance t s)) eqn:G; cbn [GameState_eqb].
  - cbn [App.gameState App.timers App.msg]. destruct Hadv as [Hp _].
    rewrite pending_ends_app, Hp. split; [reflexivity|left; reflexivity].
  - rewrite G. exact Hadv.
Qed.

(** ** The rain field *)

Lemma fall_at_length (i : nat) (delta : Q) (positions : list Q) :
  length (fall_at i delta positions) = length positions.
Proof.
  unfold fall_at. destruct (positions !! i) as [y|]; [|reflexivity].
  cbn zeta. destruct (<[i:=y - 150 * delta]> positions !! i) as [y1|];
    [destruct (Qltb y1 0)|]; rewrite ?length_insert; reflexivity.
Qed.

Lemma frame_loop_length (count fuel i : nat) (delta : Q) (positions : list Q) :
  length (frame_loop count fuel i delta positions) = length positions.
Proof.
  revert i positions. induction fuel as [|fuel IH]; intros i positions;
    [reflexivity|].
  cbn [frame_loop]. destruct (i <? count * 3)%nat; [|reflexivity].
  rewrite IH. apply fall_at_length.
Qed.

Lemma init_loop_horizontal (count fuel k i : nat) (rnd : nat -> Q)
    (pos : list Q) :
  (k < fuel)%nat -> (i + k < count)%nat -> (count * 3 <= length pos)%nat ->
  init_loop count fuel i rnd pos !! (3 * (i + k))%nat
  = Some ((rnd (3 * (i + k))%nat - (1 # 2)) * 800)
  /\ init_loop count fuel i rnd pos !! (3 * (i + k) + 2)%nat
     = Some ((rnd (3 * (i + k) + 2)%nat - (1 # 2)) * 800).
Proof.
  revert k i pos.
  induction fuel as [|fuel IH]; intros k i pos Hk Hin Hlen; [lia|].
  cbn [init_loop].
  assert (Hi : (i <? count)%nat = true) by (apply Nat.ltb_lt; lia).
  rewrite Hi. destruct k as [|k].
  - replace (i + 0)%nat with i by lia.
    rewrite !init_loop_before by lia. split.
    + rewrite !list_lookup_insert_ne by lia.
      replace (3 * i)%nat with (i * 3)%nat at 1 by lia.
      rewrite list_lookup_insert_eq; [reflexivity|lia].
    + replace (3 * i + 2)%nat with (i * 3 + 2)%nat at 1 by lia.
      rewrite list_lookup_insert_eq; [reflexivity|].
      rewrite !length_insert. lia.
  - replace (i + S k)%nat with (S i + k)%nat by lia.
    apply IH; [lia|lia|]. rewrite !length_insert. exact Hlen.
Qed.

Transparent Rain.useFrame Rain.initialPositions.

Lemma Rain_initial_horizontal (rnd : nat -> Q) (k : nat) :
  (k < Rain.count)%nat ->
  Rain.initialPositions rnd !! (3 * k)%nat
  = Some ((rnd (3 * k)%nat - (1 # 2)) * 800)
  /\ Rain.initialPositions rnd !! (3 * k + 2)%nat
     = Some ((rnd (3 * k + 2)%nat - (1 # 2)) * 800).
Proof.
  intros Hk. unfold Rain.initialPositions.
  apply (init_loop_horizontal Rain.count Rain.count k 0); [exact Hk|lia|].
  rewrite length_replicate. lia.
Qed.

Lemma Rain_initial_length (rnd : nat -> Q) :
  length (Rain.initialPositions rnd) = (Rain.count * 3)%nat.
Proof.
  unfold Rain.initialPositions. rewrite init_loop_length.
  apply length_replicate.
Qed.

Lemma Rain_useFrame_length (delta : Q) (positions : list Q) :
  length (Rain.useFrame delta positions) = length positions.
Proof. unfold Rain.useFrame. apply frame_loop_length. Qed.

Opaque Rain.useFrame Rain.initialPositions.

Lemma fold_left_cons {S D : Type} (step : S -> D -> S) (d : D) (ds : list D)
    (s : S) :
  fold_left step (d :: ds) s = fold_left step ds (step s d).
Proof. reflexivity. Qed.

Lemma rain_cons (positions : list Q) (d : Q) (ds : list Q) :
  Runs.rain positions (d :: ds) = Runs.rain (Rain.useFrame d positions) ds.
Proof.
  exact (fold_left_cons (fun p d => Rain.useFrame d p) d ds positions).
Qed.

(** X18. The rain field has 5000 particles, that is 15000 coordinates, and
    no frame changes that number; with draws in [0, 1) every particle
    starts with [x] and [z] in [-400, 400). *)
Theorem rain_field_shape (rnd : nat -> Q) (k : nat) (deltas : list Q) :
  (forall n, unit_draw (rnd n)) ->
  (k < Rain.count)%nat ->
  length (Rain.initialPositions rnd) = Z.to_nat 15000
  /\ length (Runs.rain (Rain.initialPositions rnd) deltas) = Z.to_nat 15000
  /\ (exists x z,
        Rain.initialPositions rnd !! (3 * k)%nat = Some x
        /\ Rain.initialPositions rnd !! (3 * k + 2)%nat = Some z
        /\ -400 <= x /\ x < 400 /\ -400 <= z /\ z < 400).
Proof.
  intros Hrnd Hk.
  assert (L : length (Rain.initialPositions rnd) = Z.to_nat 15000).
  { rewrite Rain_initial_length. apply Nat.eqb_eq. vm_compute. reflexivity. }
  split; [exact L|]. split.
  - revert L. generalize (Rain.initialPositions rnd).
    induction deltas as [|d ds IH]; intros p L; [exact L|].
    rewrite rain_cons. apply IH. rewrite Rain_useFrame_length. exact L.
  - destruct (Rain_initial_horizontal rnd k Hk) as [Ex Ez].
    destruct (Hrnd (3 * k)%nat) as [X0 X1].
    destruct (Hrnd (3 * k + 2)%nat) as [Z0 Z1].
    eexists. eexists. split; [exact Ex|]. split; [exact Ez|].
    repeat apply conj; lra.
Qed.

Lemma rain_field_shape_witness :
  length (Runs.rain (Rain.initialPositions (fun _ => 1 # 2)) [1 # 60; 1 # 30])
  = Z.to_nat 15000.
Proof.
  assert (Hr : forall n : nat, unit_draw ((fun _ => 1 # 2) n))
    by (intros n; split; [discriminate|reflexivity]).
  exact (proj1 (proj2
    (rain_field_shape (fun _ => 1 # 2) 0 [1 # 60; 1 # 30] Hr Rain_count_pos))).
Defined.

Lemma drop_cons (d : Q) (ds : list Q) (y : Q) :
  Runs.drop (d :: ds) y = Runs.drop ds (fall d y).
Proof. reflexivity. Qed.

Lemma drop_settles (deltas : list Q) (y : Q) :
  Forall (fun d => 0 <= d) deltas ->
  0 <= y -> y <= 300 + 150 * Runs.total deltas ->
  0 <= Runs.drop deltas y /\ Runs.drop deltas y <= 300.
Proof.
  intros Hds. revert y.
  induction Hds as [|d ds Hd Hds IH]; intros y H0 H1.
  - cbn in *. lra.
  - rewrite total_cons in H1. pose proof (total_nonneg ds Hds) as Ht.
    rewrite drop_cons. apply IH; [apply fall_nonneg|].
    destruct (fall_cases d y) as [[_ ->]|[_ ->]]; lra.
Qed.

Lemma rain_height (positions : list Q) (deltas : list Q) (k : nat) (y : Q) :
  (k < Rain.count)%nat ->
  Rain.height k positions = Some y ->
  Rain.height k (Runs.rain positions deltas) = Some (Runs.drop deltas y).
Proof.
  intros Hk. revert positions y.
  induction deltas as [|d ds IH]; intros positions y Hy; [exact Hy|].
  rewrite rain_cons, drop_cons. apply IH.
  apply Rain_useFrame_height; assumption.
Qed.

(** X19. After two thirds of a second of rain every drop is between 0 and
    300, however the time is cut into frames: from the initial field with
    draws in [0, 1), after frames with [delta >= 0] whose sum is at least
    2/3, the height of every particle is in [0, 300]. *)
Theorem rain_settles_below_top (rnd : nat -> Q) (k : nat) (deltas : list Q) :
  (forall n, unit_draw (rnd n)) ->
  (k < Rain.count)%nat ->
  Forall (fun d => 0 <= d) deltas ->
  2 # 3 <= Runs.total deltas ->
  exists y,
    Rain.height k (Runs.rain (Rain.initialPositions rnd) deltas) = Some y
    /\ 0 <= y /\ y <= 300.
Proof.
  intros Hrnd Hk Hds Ht.
  pose proof (Rain_initial_height rnd k Hk) as H0.
  exists (Runs.drop deltas (rnd (3 * k + 1)%nat * 400)).
  split; [apply rain_height; assumption|].
  destruct (Hrnd (3 * k + 1)%nat) as [R0 R1].
  apply drop_settles; [exact Hds|lra|lra].
Qed.

Lemma rain_settles_below_top_witness :
  exists y,
    Rain.height 0
      (Runs.rain (Rain.initialPositions (fun _ => 9 # 10)) [1 # 3; 1 # 3])
    = Some y
    /\ 0 <= y /\ y <= 300.
Proof.
  assert (Hr : forall n : nat, unit_draw ((fun _ => 9 # 10) n))
    by (intros n; split; [discriminate|reflexivity]).
  assert (Hds : Forall (fun d => 0 <= d) [1 # 3; 1 # 3])
    by (repeat constructor; discriminate).
  assert (Ht : 2 # 3 <= Runs.total [1 # 3; 1 # 3]) by discriminate.
  exact (rain_settles_below_top (fun _ => 9 # 10) 0 [1 # 3; 1 # 3]
           Hr Rain_count_pos Hds Ht).
Defined.

(** ** Lightning over several frames *)

Lemma lightning_cons (f : Runs.LightningFrame) (fs : list Runs.LightningFrame)
    (s : LightningSystem.State) :
  Runs.lightning (f :: fs) s
  = Runs.lightning fs
      (LightningSystem.useFrame (Runs.enabled f) (Runs.elapsedTime f)
         (Runs.delta f) (Runs.rnd f) s).
Proof. reflexivity. Qed.

Lemma Lightning_useFrame_next (enabled : bool) (elapsedTime delta : Q)
    (rnd : nat -> Q) (s : LightningSystem.State) :
  enabled && LightningSystem.flashes elapsedTime s = false ->
  LightningSystem.nextFlashTime
    (LightningSystem.useFrame enabled elapsedTime delta rnd s)
  = LightningSystem.nextFlashTime s.
Proof.
  unfold LightningSystem.useFrame. destruct enabled; cbn [negb andb].
  - intros ->. reflexivity.
  - reflexivity.
Qed.

Lemma lightning_quiet (fs : list Runs.LightningFrame)
    (s : LightningSystem.State) (B : Q) :
  B <= LightningSystem.nextFlashTime s ->
  Forall (fun f => Runs.elapsedTime f <= B) fs ->
  Runs.flash_count fs s = 0%nat
  /\ LightningSystem.nextFlashTime (Runs.lightning fs s)
     = LightningSystem.nextFlashTime s.
Proof.
  intros HB Hfs. revert s HB.
  induction Hfs as [|f fs Hf _ IH]; intros s HB; [split; reflexivity|].
  assert (E : Runs.enabled f
              && LightningSystem.flashes (Runs.elapsedTime f) s = false).
  { apply andb_false_iff. right. unfold LightningSystem.flashes.
    apply Qltb_false. lra. }
  pose proof (Lightning_useFrame_next _ _ (Runs.delta f) (Runs.rnd f) _ E)
    as Hn.
  rewrite lightning_cons. cbn [Runs.flash_count]. rewrite E.
  destruct (IH _ ltac:(rewrite Hn; exact HB)) as [-> ->].
  split; [reflexivity|exact Hn].
Qed.



(** ** The timer-driven lightning of part_000 *)

Lemma remove_last_strike_after (l : list (Q * TimedLightning.Timer))
    (a b : Q * TimedLightning.Timer) (due : Q) :
  TimedEffect.is_strike a = false -> TimedEffect.is_strike b = false ->
  (forall d, ~ In (d, TimedLightning.TriggerLightning) l) ->
  TimedEffect.remove_last_strike
    (l ++ [a; b; (due, TimedLightning.TriggerLightning)])
  = l ++ [a; b].
Proof.
  intros Ha Hb. induction l as [|x l IH]; intros Hl.
  - cbn [app TimedEffect.remove_last_strike existsb].
    rewrite Ha, Hb. reflexivity.
  - cbn [app TimedEffect.remove_last_strike].
    assert (E : existsb TimedEffect.is_strike
                  (l ++ [a; b; (due, TimedLightning.TriggerLightning)]) = true).
    { rewrite existsb_app. apply orb_true_iff. right. cbn.
      rewrite !orb_true_r. reflexivity. }
    rewrite E, IH; [reflexivity|].
    intros d Hd. apply (Hl d). right. exact Hd.
Qed.

(** X21. When the storm of part_000 ends right after a strike, the effect
    cancels the strike scheduled next but not the two timers that hide the
    flash and the bolt: they stay pending, and the one hiding the flash
    then sets the background to #050505 although the effect had set it to
    #000000. *)
Theorem stop_leaves_hide_timers (now r : Q) (s : TimedLightning.State) :
  (forall d, ~ In (d, TimedLightning.TriggerLightning)
               (TimedLightning.timers s)) ->
  let s1 := TimedEffect.stop (TimedLightning.triggerLightning now r s) in
  TimedLightning.flash s1 = false
  /\ TimedLightning.bolt s1 = false
  /\ TimedLightning.background s1 = "#000000"%string
  /\ TimedLightning.timers s1
     = TimedLightning.timers s
       ++ [(now + 100, TimedLightning.HideFlash);
           (now + 300, TimedLightning.HideBolt)]
  /\ (forall d, ~ In (d, TimedLightning.TriggerLightning)
                  (TimedLightning.timers s1))
  /\ TimedLightning.background
       (TimedEffect.fire TimedLightning.HideFlash (now + 100) r s1)
     = "#050505"%string.
Proof.
  intros Hs. cbv zeta.
  assert (T : TimedLightning.timers
                (TimedEffect.stop (TimedLightning.triggerLightning now r s))
              = TimedLightning.timers s
                ++ [(now + 100, TimedLightning.HideFlash);
                    (now + 300, TimedLightning.HideBolt)]).
  { unfold TimedEffect.stop, TimedLightning.deactivate, TimedEffect.cleanup,
      TimedLightning.triggerLightning. cbn [TimedLightning.timers].
    apply remove_last_strike_after; [reflexivity|reflexivity|exact Hs]. }
  repeat apply conj; try reflexivity; [exact T|].
  intros d Hd. rewrite T in Hd. apply in_app_or in Hd.
  destruct Hd as [Hd|[[=]|[[=]|[]]]]. exact (Hs d Hd).
Qed.

Lemma stop_leaves_hide_timers_witness :
  TimedLightning.timers
    (TimedEffect.stop
       (TimedLightning.triggerLightning 500 (1 # 2)
          (TimedLightning.mkState false false "#000000" [])))
  = [(500 + 100, TimedLightning.HideFlash);
     (500 + 300, TimedLightning.HideBolt)].
Proof.
  assert (Hs : forall d,
             ~ In (d, TimedLightning.TriggerLightning)
                 (TimedLightning.timers
                    (TimedLightning.mkState false false "#000000" [])))
    by (intros d []).
  exact (proj1 (proj2 (proj2 (proj2
    (stop_leaves_hide_timers 500 (1 # 2)
       (TimedLightning.mkState false false "#000000" []) Hs))))).
Defined.

(** ** From the accumulator to the storm *)

(** X22. In a calm application, the frame in which a moving hand takes the
    accumulator past 10 s starts the storm within that same frame: the
    trigger is called once, the accumulator is back at 0, the state is
    STORM with the storm message, and the storm-end timer is added, due
    10000 ms after the time of the call.  This holds for the scene of
    OceanEnvironment.tsx and for the scene of part_000. *)
Theorem passing_threshold_starts_storm (now : Q) (handData : HandData)
    (delta : Q) (sc : SceneController.State) (c : SceneContent.State)
    (a : App.State) :
  App.gameState a = NORMAL ->
  SceneController.isMoving handData = true ->
  10 < SceneController.moveDuration sc + delta ->
  isDetected handData = true ->
  10 < SceneContent.updated handData delta (SceneContent.movement c) ->
  let storm := App.mkState STORM "A STORM IS PASSING THROUGH..."
                 (App.timers a ++ [(now + 10000, App.EndStorm)]) in
  let r := Mounted.frame now handData delta (Mounted.mkWorld sc a) in
  let r' := Mounted.frame_alt now handData delta (Mounted.mkWorld_alt c a) in
  (snd r = 1%nat
   /\ Mounted.app (fst r) = storm
   /\ SceneController.moveDuration (Mounted.controller (fst r)) = 0)
  /\ (snd r' = 1%nat
      /\ Mounted.app_alt (fst r') = storm
      /\ SceneContent.movement (Mounted.content (fst r')) = 0).
Proof.
  intros G Hm H10 Hd H10'. cbv zeta.
  assert (E : App.triggerStorm now a
              = App.mkState STORM "A STORM IS PASSING THROUGH..."
                  (App.timers a ++ [(now + 10000, App.EndStorm)])).
  { unfold App.triggerStorm. rewrite G. reflexivity. }
  destruct (Mounted_frame now handData delta (Mounted.mkWorld sc a))
    as [-> ->].
  destruct (Mounted_frame_alt now handData delta (Mounted.mkWorld_alt c a))
    as [-> ->].
  cbn [Mounted.controller Mounted.content Mounted.app Mounted.app_alt].
  rewrite Hm, Hd, G, (proj2 (Qltb_true _ _) H10), (proj2 (Qltb_true _ _) H10').
  cbn [andb GameState_eqb]. rewrite E.
  repeat apply conj; try reflexivity.
  - unfold Mounted.frame.
    pose proof (SceneController_moveDuration
                  (counted (App.triggerStorm now)) handData delta sc
                  (0%nat, a)) as M.
    cbn [Mounted.controller Mounted.app].
    destruct (SceneController.useFrame _ _ _ _ _) as [c0 [n0 a0]].
    cbn [fst Mounted.controller] in *. rewrite M, Hm.
    rewrite (proj2 (Qltb_true _ _) H10). reflexivity.
  - unfold Mounted.frame_alt.
    pose proof (SceneContent_movement
                  (counted (App.triggerStorm now)) handData
                  (App.gameState a) delta c (0%nat, a)) as M.
    cbn [Mounted.content Mounted.app_alt].
    destruct (SceneContent.useFrame _ _ _ _ _ _) as [c0 [n0 a0]].
    cbn [fst Mounted.content] in *. rewrite M, Hd, G.
    rewrite (proj2 (Qltb_true _ _) H10'). reflexivity.
Qed.

Lemma passing_threshold_starts_storm_witness :
  let hand := mkHandData true (mkVector2 (19 # 20) (1 # 2))
                (mkVector2 (9 # 10) 0) in
  let sc := SceneController.mkState 10 (mkVector3 0 0 0) (mkVector3 0 10 100) in
  App.gameState
    (Mounted.app
       (fst (Mounted.frame 0 hand (1 # 60) (Mounted.mkWorld sc App.initial))))
  = STORM.
Proof.
  cbv zeta.
  assert (G : App.gameState App.initial = NORMAL) by reflexivity.
  assert (Hm : SceneController.isMoving
                 (mkHandData true (mkVector2 (19 # 20) (1 # 2))
                    (mkVector2 (9 # 10) 0)) = true) by reflexivity.
  assert (H10 : 10 < SceneController.moveDuration
                       (SceneController.mkState 10 (mkVector3 0 0 0)
                          (mkVector3 0 10 100)) + (1 # 60)) by reflexivity.
  assert (Hd : isDetected
                 (mkHandData true (mkVector2 (19 # 20) (1 # 2))
                    (mkVector2 (9 # 10) 0)) = true) by reflexivity.
  assert (H10' : 10 < SceneContent.updated
                        (mkHandData true (mkVector2 (19 # 20) (1 # 2))
                           (mkVector2 (9 # 10) 0)) (1 # 60)
                        (SceneContent.movement
                           (SceneContent.mkState 10 (mkVector3 0 10 100)
                              (mkVector3 0 10 (-50))))) by reflexivity.
  rewrite (proj1 (proj2 (proj1
    (passing_threshold_starts_storm 0 _ (1 # 60) _
       (SceneContent.mkState 10 (mkVector3 0 10 100) (mkVector3 0 10 (-50)))
       App.initial G Hm H10 Hd H10')))).
  reflexivity.
Defined.
